(** * FolderKeywordRename: a shallow embedding of [FolderKeywordRename.cpp]

    The program parses its command line into a [Config], scans the working
    directory for sub-directories whose name contains a keyword (ignoring
    case), renames the single match and optionally runs a follow-up command.

    Byte strings ([std::string]) are [string]; the locale that [main]
    installs at start-up is a parameter ([Locale]); the host file system and
    the command interpreter are an interface ([Host]); console output,
    file-system calls and command executions are recorded in a trace of
    events. *)

From Stdlib Require Import List String Ascii Bool Arith ZArith Lia.
Import ListNotations.
Open Scope string_scope.
Open Scope list_scope.

Set Implicit Arguments.

(** ** Byte strings *)

Module Str.

(** [::tolower] as it is in the "C" locale: the 26 upper-case ASCII letters
    are shifted to lower case, every other byte is returned as it is. *)
Definition c_tolower (c : ascii) : ascii :=
  let n := nat_of_ascii c in
  if (Nat.leb 65 n && Nat.leb n 90)%bool then ascii_of_nat (n + 32) else c.

(** ASCII upper-casing, used only to state case symmetry. *)
Definition ascii_toupper (c : ascii) : ascii :=
  let n := nat_of_ascii c in
  if (Nat.leb 97 n && Nat.leb n 122)%bool then ascii_of_nat (n - 32) else c.

(** [std::transform(s.begin(), s.end(), s.begin(), f)] *)
Fixpoint transform (f : ascii -> ascii) (s : string) : string :=
  match s with
  | EmptyString => EmptyString
  | String c s' => String (f c) (transform f s')
  end.

(** Does [s] start with [needle]? *)
Fixpoint starts_with (needle s : string) : bool :=
  match needle, s with
  | EmptyString, _ => true
  | String _ _, EmptyString => false
  | String a needle', String b s' => (Ascii.eqb a b && starts_with needle' s')%bool
  end.

(** [s.find(needle)], searching from [pos]; [None] is [std::string::npos].
    The search tries every start position up to and including the end of
    [s], so the empty needle is found at the first position tried. *)
Fixpoint find_from (pos : nat) (needle s : string) : option nat :=
  if starts_with needle s then Some pos
  else match s with
       | EmptyString => None
       | String _ s' => find_from (S pos) needle s'
       end.

Definition find (s needle : string) : option nat := find_from 0 needle s.

(** [s.empty()] *)
Definition empty (s : string) : bool :=
  match s with EmptyString => true | String _ _ => false end.

(** [t] occurs in [s] as a contiguous substring. *)
Definition Substring (t s : string) : Prop :=
  exists pre post, s = (pre ++ t ++ post)%string.


End Str.

(** ** The locale

    [::tolower] follows the global C locale. [main] begins with
    [setConsoleEncoding], whose [std::locale::global(std::locale(""))]
    (line 39) installs the locale named by the environment, so the lowering
    in [containsKeyword] is that locale's; a [Locale] is what the program
    uses of it: the byte-to-byte map of [::tolower]. *)
Class Locale : Type := { lc_tolower : ascii -> ascii }.

(** The "C" locale, and a locale that leaves [I] alone. *)
Definition c_locale : Locale := {| lc_tolower := Str.c_tolower |}.

(** [containsKeyword], lines 111-120, under the locale in force. *)
Definition containsKeyword {loc : Locale} (folderName keyword : string) : bool :=
  let lowerFolder := Str.transform lc_tolower folderName in
  let lowerKeyword := Str.transform lc_tolower keyword in
  match Str.find lowerFolder lowerKeyword with
  | Some _ => true
  | None => false
  end.

(** ** Configuration (lines 18-24) *)

Record Config : Type := mkConfig {
  keyword : string;
  newName : string;
  command : string;
  executeCommand : bool;
  verbose : bool
}.

(** A default-constructed [Config]: empty strings, both flags [false]. *)
Definition default_config : Config := mkConfig "" "" "" false false.

Definition set_keyword (c : Config) (v : string) : Config :=
  mkConfig v (newName c) (command c) (executeCommand c) (verbose c).
Definition set_newName (c : Config) (v : string) : Config :=
  mkConfig (keyword c) v (command c) (executeCommand c) (verbose c).
Definition set_command (c : Config) (v : string) : Config :=
  mkConfig (keyword c) (newName c) v (executeCommand c) (verbose c).
Definition set_executeCommand (c : Config) (b : bool) : Config :=
  mkConfig (keyword c) (newName c) (command c) b (verbose c).
Definition set_verbose (c : Config) (b : bool) : Config :=
  mkConfig (keyword c) (newName c) (command c) (executeCommand c) b.

(** ** Observable behaviour *)

(** The console texts of the program, one constructor per text, with the
    values that are interpolated into it. *)
Inductive message : Type :=
| MsgUsage                                   (* showHelp, lines 44-56 *)
| MsgMissingKeyword                          (* line 74 *)
| MsgMissingNewName                          (* line 82 *)
| MsgMissingCommand                          (* line 91 *)
| MsgUnknownOption (arg : string)            (* line 96 *)
| MsgRequiredMissing                         (* line 102 *)
| MsgStart (kw nn : string)                  (* lines 155-157 *)
| MsgExtraCommand (cmd : string)             (* line 159 *)
| MsgRule                                    (* line 161 *)
| MsgFound (folderName : string)             (* line 176 *)
| MsgNoMatch (kw : string)                   (* line 183 *)
| MsgAmbiguous (count : nat)                 (* lines 188-190 *)
| MsgTargetExists (nn : string)              (* line 200 *)
| MsgRenamed (oldName nn : string)           (* line 206 *)
| MsgRunningExtra                            (* line 210 *)
| MsgExecuting (cmd : string)                (* line 125 *)
| MsgCommandFailed (status : Z)              (* line 131 *)
| MsgCommandOk                               (* line 136 *)
| MsgFsError (what : string)                 (* lines 217, 220 *)
| MsgDone.                                   (* line 225 *)

Inductive stream : Type := Cout | Cerr.

(** What a run does to the outside world, in order. *)
Inductive event : Type :=
| Output (s : stream) (m : message)
| ListDir (root : string)                    (* fs::directory_iterator *)
| Exists (p : string)                        (* fs::exists *)
| Rename (from to : string) (ok : bool)      (* fs::rename, and whether it succeeded *)
| System (cmd : string).                     (* std::system *)

Definition is_output (e : event) : bool :=
  match e with Output _ _ => true | _ => false end.
Definition is_rename (e : event) : bool :=
  match e with Rename _ _ _ => true | _ => false end.
Definition is_system (e : event) : bool :=
  match e with System _ => true | _ => false end.

(** Number of events of a trace that satisfy [p]. *)
Definition count (p : event -> bool) (t : list event) : nat :=
  List.length (filter p t).

(** ** The host: file system and command interpreter *)

(** A call either yields a value or throws [fs::filesystem_error]. *)
Inductive result (A : Type) : Type :=
| Ok (a : A)
| Error (what : string).
Arguments Error {A} what.

(** [fs::directory_entry]: the entry's path and the answer of
    [is_directory()]. *)
Record directory_entry : Type := mkEntry {
  path : string;
  is_directory : bool
}.

(** The capabilities the program uses. [directory_iterator] gives the entries
    the iteration yields and, when the iteration breaks off with an
    exception, its text. [fs_exists] and the listing only read the file
    system; [fs_rename] and [system] may change it. *)
Class Host (FS : Type) : Type := {
  directory_iterator : FS -> string -> list directory_entry * option string;
  fs_exists : FS -> string -> result bool;
  fs_rename : FS -> string -> string -> result FS;
  system : FS -> string -> Z * FS
}.

(** [fs::path::filename()]: what follows the last separator. *)
Fixpoint has_separator (p : string) : bool :=
  match p with
  | EmptyString => false
  | String c p' => (Ascii.eqb c "/" || has_separator p')%bool
  end.

Fixpoint filename (p : string) : string :=
  match p with
  | EmptyString => EmptyString
  | String _ p' => if has_separator p then filename p' else p
  end.

(** ** Argument parser (lines 59-108) *)

Definition showHelp : list event := [Output Cout MsgUsage].

(** The [for] loop over [argv[1..argc-1]]: the returned triple is [(true, _, _)]
    when the loop runs to its end and [(false, _, _)] when it leaves the
    function with [return false]; the [Config] is the one written through the
    reference, the events are the console output. *)
Fixpoint parse_loop (args : list string) (config : Config)
  : bool * Config * list event :=
  match args with
  | [] => (true, config, [])
  | arg :: rest =>
    if ((arg =? "-h") || (arg =? "--help"))%bool then
      (false, config, showHelp)
    else if ((arg =? "-v") || (arg =? "--verbose"))%bool then
      parse_loop rest (set_verbose config true)
    else if ((arg =? "-k") || (arg =? "--keyword"))%bool then
      match rest with
      | value :: rest' => parse_loop rest' (set_keyword config value)
      | [] => (false, config, [Output Cerr MsgMissingKeyword])
      end
    else if ((arg =? "-n") || (arg =? "--newname"))%bool then
      match rest with
      | value :: rest' => parse_loop rest' (set_newName config value)
      | [] => (false, config, [Output Cerr MsgMissingNewName])
      end
    else if ((arg =? "-c") || (arg =? "--command"))%bool then
      match rest with
      | value :: rest' =>
          parse_loop rest' (set_executeCommand (set_command config value) true)
      | [] => (false, config, [Output Cerr MsgMissingCommand])
      end
    else
      (false, config, [Output Cerr (MsgUnknownOption arg)])
  end.

(** [parseArguments(argc, argv, config)]: [argv[0]] is skipped. *)
Definition parseArguments (argv : list string) (config : Config)
  : bool * Config * list event :=
  match parse_loop (tl argv) config with
  | (false, config', out) => (false, config', out)
  | (true, config', out) =>
      if (Str.empty (keyword config') || Str.empty (newName config'))%bool then
        (false, config', out ++ [Output Cerr MsgRequiredMissing] ++ showHelp)
      else
        (true, config', out)
  end.

(** ** Statements with effects *)

(** How a piece of code ends. *)
Inductive outcome (A : Type) : Type :=
| Value (a : A)               (* it ran to its end, with this value *)
| Returned (code : Z)         (* [main] executed [return code;] *)
| Thrown (what : string).     (* an exception is propagating *)
Arguments Returned {A} code.
Arguments Thrown {A} what.

Section Program.

Context {FS : Type} {host : Host FS}.

(** A statement runs on a file system and gives its outcome, the file
    system it leaves, and the events it caused. *)
Definition M (A : Type) : Type := FS -> outcome A * FS * list event.

Definition ret {A : Type} (a : A) : M A := fun fs => (Value a, fs, []).

Definition bind {A B : Type} (m : M A) (k : A -> M B) : M B :=
  fun fs =>
    match m fs with
    | (Value a, fs1, t1) =>
        match k a fs1 with (o, fs2, t2) => (o, fs2, t1 ++ t2) end
    | (Returned code, fs1, t1) => (Returned code, fs1, t1)
    | (Thrown what, fs1, t1) => (Thrown what, fs1, t1)
    end.

Definition return_ {A : Type} (code : Z) : M A := fun fs => (Returned code, fs, []).
Definition throw {A : Type} (what : string) : M A := fun fs => (Thrown what, fs, []).
Definition emit (t : list event) : M unit := fun fs => (Value tt, fs, t).
Definition print (s : stream) (m : message) : M unit := emit [Output s m].

(** [if (b) { m }] *)
Definition when (b : bool) (m : M unit) : M unit := if b then m else ret tt.

(** [try { body } catch (const fs::filesystem_error& e) { handler e.what() }] *)
Definition try_catch (body : M unit) (handler : string -> M unit) : M unit :=
  fun fs =>
    match body fs with
    | (Thrown what, fs1, t1) =>
        match handler what fs1 with (o, fs2, t2) => (o, fs2, t1 ++ t2) end
    | r => r
    end.

Notation "x <- m ;; k" := (bind m (fun x => k))
  (at level 61, m at next level, right associativity).
Notation "m ;; k" := (bind m (fun _ => k))
  (at level 61, right associativity).

(** The host's calls as statements. *)
Definition exists_ (p : string) : M bool :=
  fun fs =>
    match fs_exists fs p with
    | Ok b => (Value b, fs, [Exists p])
    | Error what => (Thrown what, fs, [Exists p])
    end.

Definition rename (from to : string) : M unit :=
  fun fs =>
    match fs_rename fs from to with
    | Ok fs' => (Value tt, fs', [Rename from to true])
    | Error what => (Thrown what, fs, [Rename from to false])
    end.

Definition std_system (cmd : string) : M Z :=
  fun fs => match system fs cmd with (status, fs') => (Value status, fs', [System cmd]) end.

(** [executeExternalCommand], lines 123-140. *)
Definition executeExternalCommand (cmd : string) (verbose : bool) : M bool :=
  when verbose (print Cout (MsgExecuting cmd)) ;;
  status <- std_system cmd ;;
  if negb (status =? 0)%Z then
    print Cerr (MsgCommandFailed status) ;;
    ret false
  else
    when verbose (print Cout MsgCommandOk) ;;
    ret true.

(** [setConsoleEncoding], lines 27-41. [std::locale("")] builds the locale
    the environment names, or throws [std::runtime_error] when it names none
    the runtime knows; the locale built becomes the global one. [env] is
    what the environment names. (The console code page of lines 28-36 and
    the [imbue] of line 40 do not bear on what is modelled.) *)
Definition setConsoleEncoding (env : result Locale) : M Locale :=
  match env with
  | Ok loc => ret loc
  | Error what => throw what
  end.

(** From here on the code runs under the locale [loc] that
    [setConsoleEncoding] has installed. *)
Context {loc : Locale}.

(** The body of the loop of lines 168-180, over the entries the iteration
    yields; [matchedFolders] is the vector being filled. *)
Fixpoint scan_entries (entries : list directory_entry) (config : Config)
    (matchedFolders : list string) : M (list string) :=
  match entries with
  | [] => ret matchedFolders
  | entry :: rest =>
    if is_directory entry then
      let folderName := filename (path entry) in
      if containsKeyword folderName (keyword config) then
        when (verbose config) (print Cout (MsgFound folderName)) ;;
        scan_entries rest config (matchedFolders ++ [path entry])
      else scan_entries rest config matchedFolders
    else scan_entries rest config matchedFolders
  end.

(** The whole loop: the iteration of [fs::directory_iterator(root)], which
    may break off with an exception after the entries it has yielded. *)
Definition scan (root : string) (config : Config) : M (list string) :=
  fun fs =>
    match directory_iterator fs root with
    | (entries, failure) =>
        (emit [ListDir root] ;;
         matchedFolders <- scan_entries entries config [] ;;
         match failure with
         | Some what => throw what
         | None => ret matchedFolders
         end) fs
    end.

(** The [try] block of [main], lines 165-214. *)
Definition main_try (config : Config) : M unit :=
  matchedFolders <- scan "." config ;;
  when (Nat.eqb (List.length matchedFolders) 0)
    (print Cout (MsgNoMatch (keyword config)) ;;
     return_ 0) ;;
  when (Nat.ltb 1 (List.length matchedFolders))
    (print Cout (MsgAmbiguous (List.length matchedFolders)) ;;
     return_ 1) ;;
  let oldPath := nth 0 matchedFolders "" in
  let newPath := newName config in
  target_exists <- exists_ newPath ;;
  when target_exists
    (print Cerr (MsgTargetExists (newName config)) ;;
     return_ 1) ;;
  rename oldPath newPath ;;
  print Cout (MsgRenamed (filename oldPath) (newName config)) ;;
  when (executeCommand config)
    (print Cout MsgRunningExtra ;;
     ok <- executeExternalCommand (command config) (verbose config) ;;
     when (negb ok) (return_ 1)).

(** [main] after the arguments have been parsed, lines 154-228. *)
Definition main_run (config : Config) : M unit :=
  when (verbose config)
    (print Cout (MsgStart (keyword config) (newName config)) ;;
     when (executeCommand config) (print Cout (MsgExtraCommand (command config))) ;;
     print Cout MsgRule) ;;
  try_catch (main_try config)
    (fun what => print Cerr (MsgFsError what) ;; return_ 1) ;;
  when (verbose config) (print Cout MsgDone) ;;
  return_ 0.

End Program.

Section Main.

Context {FS : Type} {host : Host FS}.

Notation "x <- m ;; k" := (bind m (fun x => k))
  (at level 61, m at next level, right associativity).
Notation "m ;; k" := (bind m (fun _ => k))
  (at level 61, right associativity).

(** [main], lines 143-229, in an environment that names the locale [env].
    [setConsoleEncoding] is called outside the [try] block: an exception it
    throws leaves [main]. *)
Definition main (env : result Locale) (argv : list string) : M unit :=
  loc <- setConsoleEncoding env ;;
  match parseArguments argv default_config with
  | (ok, config, out) =>
      emit out ;;
      when (negb ok) (return_ 1) ;;
      main_run (loc := loc) config
  end.

End Main.

(** The matches of a listing, stated directly: the paths of the directories
    whose final component contains the keyword, in listing order. *)
Definition matching {loc : Locale} (entries : list directory_entry) (kw : string)
  : list string :=
  map path
    (filter (fun e => (is_directory e && containsKeyword (filename (path e)) kw)%bool)
       entries).

(** The console output of the loop: one line per match when verbose. *)
Definition found_lines {loc : Locale} (entries : list directory_entry) (config : Config)
  : list event :=
  if verbose config then
    map (fun p => Output Cout (MsgFound (filename p))) (matching entries (keyword config))
  else [].

(** The console output of lines 154-162. *)
Definition header_lines (config : Config) : list event :=
  if verbose config then
    Output Cout (MsgStart (keyword config) (newName config))
    :: (if executeCommand config then [Output Cout (MsgExtraCommand (command config))] else [])
    ++ [Output Cout MsgRule]
  else [].

(** Everything a run does up to the end of the scan. *)
Definition scan_events {loc : Locale} (config : Config) (entries : list directory_entry)
  : list event :=
  header_lines config ++ ListDir "." :: found_lines entries config.

(** The console output of lines 224-226. *)
Definition done_lines (config : Config) : list event :=
  if verbose config then [Output Cout MsgDone] else [].

(** What the follow-up command of lines 209-214 and 123-140 adds to the
    trace, given the status the interpreter returns. *)
Definition command_events (config : Config) (status : Z) : list event :=
  Output Cout MsgRunningExtra
  :: (if verbose config then [Output Cout (MsgExecuting (command config))] else [])
  ++ System (command config)
  :: (if (status =? 0)%Z
      then if verbose config then [Output Cout MsgCommandOk] else []
      else [Output Cerr (MsgCommandFailed status)]).

(** The events of a run up to the end of the scan: the listing and the
    progress lines. *)
Definition is_progress (e : event) : bool :=
  match e with
  | ListDir _ => true
  | Output Cout (MsgStart _ _) | Output Cout (MsgExtraCommand _)
  | Output Cout MsgRule | Output Cout (MsgFound _) => true
  | _ => false
  end.

(** The events that end a run before any command can be started: the
    reports of no match, of several matches, of an existing target and of a
    file-system error, and a rename that failed. *)
Definition halts_run (e : event) : bool :=
  match e with
  | Output _ (MsgNoMatch _) | Output _ (MsgAmbiguous _)
  | Output _ (MsgTargetExists _) | Output _ (MsgFsError _) => true
  | Rename _ _ false => true
  | _ => false
  end.

(** The runs of [main_run], case by case on what the host answers
    ([main_run_cases] proves the two equal). *)
Definition run_cases {FS : Type} {host : Host FS} {loc : Locale} (config : Config) (fs : FS)
  : outcome unit * FS * list event :=
  match directory_iterator fs "." with
  | (entries, Some what) =>
      (Returned 1%Z, fs, scan_events config entries ++ [Output Cerr (MsgFsError what)])
  | (entries, None) =>
      let start := scan_events config entries in
      let nn := newName config in
      match matching entries (keyword config) with
      | [] => (Returned 0%Z, fs, start ++ [Output Cout (MsgNoMatch (keyword config))])
      | [oldPath] =>
          match fs_exists fs nn with
          | Error what =>
              (Returned 1%Z, fs, start ++ [Exists nn; Output Cerr (MsgFsError what)])
          | Ok true =>
              (Returned 1%Z, fs, start ++ [Exists nn; Output Cerr (MsgTargetExists nn)])
          | Ok false =>
              match fs_rename fs oldPath nn with
              | Error what =>
                  (Returned 1%Z, fs,
                   start ++ [Exists nn; Rename oldPath nn false; Output Cerr (MsgFsError what)])
              | Ok fs1 =>
                  let renamed :=
                    start ++ [Exists nn; Rename oldPath nn true;
                              Output Cout (MsgRenamed (filename oldPath) nn)] in
                  if executeCommand config then
                    match system fs1 (command config) with
                    | (status, fs2) =>
                        if (status =? 0)%Z then
                          (Returned 0%Z, fs2,
                           renamed ++ command_events config status ++ done_lines config)
                        else
                          (Returned 1%Z, fs2, renamed ++ command_events config status)
                    end
                  else (Returned 0%Z, fs1, renamed ++ done_lines config)
              end
          end
      | oldPath :: another :: more =>
          (Returned 1%Z, fs,
           start ++ [Output Cout (MsgAmbiguous (List.length (oldPath :: another :: more)))])
      end
  end.

(** ** Argument lists, as the usage text describes them *)

Inductive value_option : Type := OptKeyword | OptNewName | OptCommand.

Definition value_option_eqb (a b : value_option) : bool :=
  match a, b with
  | OptKeyword, OptKeyword | OptNewName, OptNewName | OptCommand, OptCommand => true
  | _, _ => false
  end.

(** One option of a command line: [-v], or a value-taking option with the
    token that follows it; [long] selects the long spelling. *)
Inductive item : Type :=
| Verbose (long : bool)
| Valued (o : value_option) (long : bool) (value : string).

Definition option_name (o : value_option) (long : bool) : string :=
  match o, long with
  | OptKeyword, false => "-k"
  | OptKeyword, true => "--keyword"
  | OptNewName, false => "-n"
  | OptNewName, true => "--newname"
  | OptCommand, false => "-c"
  | OptCommand, true => "--command"
  end.

Definition tokens (i : item) : list string :=
  match i with
  | Verbose long => [if long then "--verbose" else "-v"]
  | Valued o long value => [option_name o long; value]
  end.

Definition tokens_of (items : list item) : list string := flat_map tokens items.

(** The value given to [o] by its last occurrence, if it occurs; [seen] is
    the value found so far. *)
Fixpoint last_value_from (seen : option string) (o : value_option) (items : list item)
  : option string :=
  match items with
  | [] => seen
  | Verbose _ :: rest => last_value_from seen o rest
  | Valued o' _ value :: rest =>
      last_value_from (if value_option_eqb o o' then Some value else seen) o rest
  end.

Definition last_value (o : value_option) (items : list item) : option string :=
  last_value_from None o items.

Definition is_verbose (i : item) : bool :=
  match i with Verbose _ => true | Valued _ _ _ => false end.

(** What the parser does to the [Config] on one option. *)
Definition apply_item (c : Config) (i : item) : Config :=
  match i with
  | Verbose _ => set_verbose c true
  | Valued OptKeyword _ value => set_keyword c value
  | Valued OptNewName _ value => set_newName c value
  | Valued OptCommand _ value => set_executeCommand (set_command c value) true
  end.

Definition is_help (arg : string) : bool := ((arg =? "-h") || (arg =? "--help"))%bool.

Definition or_empty (v : option string) : string :=
  match v with Some s => s | None => "" end.

Definition is_some (v : option string) : bool :=
  match v with Some _ => true | None => false end.

(** A [Config] written back as an argument list:
    [-k keyword -n newName], then [-c command] when [executeCommand], then
    [-v] when [verbose]. *)
Definition serialize (c : Config) : list string :=
  ["-k"; keyword c; "-n"; newName c]
  ++ (if executeCommand c then ["-c"; command c] else [])
  ++ (if verbose c then ["-v"] else []).

(** ** A host in memory

    The working directory as the list of its entries (name, and whether the
    entry is a directory). Listing never fails, a rename fails when the
    source is missing, and the command interpreter knows [exit 1], which
    fails with status 1; every other command succeeds. No command touches the
    directory. *)
Module MemFS.

Definition t : Type := list (string * bool).

Definition has (fs : t) (name : string) : bool :=
  existsb (fun e => fst e =? name) fs.

Definition list_dir (fs : t) (root : string) : list directory_entry * option string :=
  (map (fun e => mkEntry (root ++ "/" ++ fst e)%string (snd e)) fs, None).

Definition exists_at (fs : t) (p : string) : result bool := Ok (has fs (filename p)).

Definition move (fs : t) (from to : string) : result t :=
  if has fs (filename from) then
    Ok (map (fun e => if fst e =? filename from then (filename to, snd e) else e) fs)
  else Error "No such file or directory".

Definition run (fs : t) (cmd : string) : Z * t :=
  (if cmd =? "exit 1" then 1%Z else 0%Z, fs).

#[global] Instance host : Host t := {
  directory_iterator := list_dir;
  fs_exists := exists_at;
  fs_rename := move;
  system := run
}.

End MemFS.

(** The directories of the examples. *)
Definition dir_temp : MemFS.t := [("temp_project", true); ("notes.txt", false)].
Definition dir_temp_final : MemFS.t :=
  [("temp_project", true); ("final", true)].
Definition dir_old : MemFS.t := [("old_temp", true); ("old_backup", true)].

(** ** Further vocabulary for argument lists and traces *)

(** The error text for a value-taking option that ends the command line
    (lines 74, 82, 91). *)
Definition missing_value_message (o : value_option) : message :=
  match o with
  | OptKeyword => MsgMissingKeyword
  | OptNewName => MsgMissingNewName
  | OptCommand => MsgMissingCommand
  end.

(** The ten spellings the parser compares a token with (lines 63-86). *)
Definition recognised (arg : string) : bool :=
  ((arg =? "-h") || (arg =? "--help") || (arg =? "-v") || (arg =? "--verbose")
   || (arg =? "-k") || (arg =? "--keyword") || (arg =? "-n") || (arg =? "--newname")
   || (arg =? "-c") || (arg =? "--command"))%bool.

(** The calls to the host in a trace: everything but console output. *)
Definition host_calls (t : list event) : list event :=
  filter (fun e => negb (is_output e)) t.

Definition is_ok_rename (e : event) : bool :=
  match e with Rename _ _ true => true | _ => false end.

(** The texts that tell the user why a run ended with 1: everything on
    [std::cerr], the usage text, and the warning about several matches. *)
Definition is_diagnostic (e : event) : bool :=
  match e with
  | Output Cerr _ => true
  | Output Cout MsgUsage | Output Cout (MsgAmbiguous _) => true
  | _ => false
  end.

(** The lines the parser writes: its five error texts on [std::cerr] and
    the usage text on [std::cout]. *)
Definition is_parser_line (e : event) : bool :=
  match e with
  | Output Cerr MsgMissingKeyword | Output Cerr MsgMissingNewName
  | Output Cerr MsgMissingCommand | Output Cerr (MsgUnknownOption _)
  | Output Cerr MsgRequiredMissing => true
  | Output Cout MsgUsage => true
  | _ => false
  end.

Definition is_cerr (e : event) : bool :=
  match e with Output Cerr _ => true | _ => false end.

(** A run without its console output: how it ends, the file system it
    leaves, and its calls to the host. *)
Definition without_output {FS : Type} (r : outcome unit * FS * list event)
  : outcome unit * FS * list event :=
  (fst (fst r), snd (fst r), host_calls (snd r)).

(** ** A host with a fault

    The directory in memory together with one call that throws: the
    iteration breaks off after a number of entries, or [fs::exists] throws,
    or [fs::rename] throws. The other calls answer as [MemFS]. *)
Module FaultyFS.

Inductive fault : Type :=
| ListBreaks (after : nat)
| ExistsThrows
| RenameThrows.

Record t : Type := mk { dir : MemFS.t; broken : fault }.

Definition list_dir (fs : t) (root : string) : list directory_entry * option string :=
  match broken fs with
  | ListBreaks after =>
      (firstn after (fst (MemFS.list_dir (dir fs) root)), Some "Permission denied")
  | _ => MemFS.list_dir (dir fs) root
  end.

Definition exists_at (fs : t) (p : string) : result bool :=
  match broken fs with
  | ExistsThrows => Error "Input/output error"
  | _ => MemFS.exists_at (dir fs) p
  end.

Definition move (fs : t) (from to : string) : result t :=
  match broken fs with
  | RenameThrows => Error "Permission denied"
  | _ =>
      match MemFS.move (dir fs) from to with
      | Ok d => Ok (mk d (broken fs))
      | Error what => Error what
      end
  end.

Definition run (fs : t) (cmd : string) : Z * t :=
  match MemFS.run (dir fs) cmd with (status, d) => (status, mk d (broken fs)) end.

#[global] Instance host : Host t := {
  directory_iterator := list_dir;
  fs_exists := exists_at;
  fs_rename := move;
  system := run
}.

End FaultyFS.

(** * Properties *)

(** ** Substring search *)

Section StringFacts.

Lemma starts_with_iff (needle s : string) :
  Str.starts_with needle s = true <-> exists post, s = (needle ++ post)%string.
Proof.
  revert s; induction needle as [|a needle IH]; intros s; simpl.
  - split; [intros _; now exists s | reflexivity].
  - destruct s as [|b s].
    + split; [discriminate | intros [post H]; discriminate].
    + rewrite andb_true_iff, Ascii.eqb_eq, IH. split.
      * intros [-> [post ->]]. now exists post.
      * intros [post H]. injection H as -> ->. split; [reflexivity | now exists post].
Qed.

Lemma find_from_found (pos : nat) (needle s : string) :
  (exists n, Str.find_from pos needle s = Some n) <-> Str.Substring needle s.
Proof.
  revert pos; induction s as [|c s IH]; intros pos.
  - cbn [Str.find_from].
    destruct (Str.starts_with needle "") eqn:E.
    + split; [intros _ | intros _; now exists pos].
      apply starts_with_iff in E. destruct E as [post E].
      exists ""%string, post. exact E.
    + split; [intros [n H]; discriminate |].
      intros [pre [post H]].
      destruct pre; [|discriminate].
      assert (Str.starts_with needle "" = true) as E'
        by (apply starts_with_iff; now exists post).
      congruence.
  - cbn [Str.find_from].
    destruct (Str.starts_with needle (String c s)) eqn:E.
    + split; [intros _ | intros _; now exists pos].
      apply starts_with_iff in E. destruct E as [post E].
      exists ""%string, post. exact E.
    + rewrite IH. split.
      * intros [pre [post ->]]. now exists (String c pre), post.
      * intros [pre [post H]]. destruct pre as [|c' pre].
        -- assert (Str.starts_with needle (String c s) = true) as E'
             by (apply starts_with_iff; now exists post).
           congruence.
        -- injection H as -> ->. now exists pre, post.
Qed.


Lemma transform_transform (f g : ascii -> ascii) (s : string) :
  Str.transform f (Str.transform g s) = Str.transform (fun c => f (g c)) s.
Proof. induction s as [|c s IH]; simpl; [reflexivity | now rewrite IH]. Qed.

Lemma transform_ext (f g : ascii -> ascii) (s : string) :
  (forall c, f c = g c) -> Str.transform f s = Str.transform g s.
Proof. intros H; induction s as [|c s IH]; simpl; [reflexivity | now rewrite H, IH]. Qed.


Lemma c_tolower_toupper (c : ascii) :
  Str.c_tolower (Str.ascii_toupper c) = Str.c_tolower c.
Proof. destruct c as [[] [] [] [] [] [] [] []]; vm_compute; reflexivity. Qed.

(** A byte-wise rewriting [g] that the lowering [f] cancels. *)
Lemma transform_cancel (f g : ascii -> ascii) (s : string) :
  (forall c, f (g c) = f c) ->
  Str.transform f (Str.transform g s) = Str.transform f s.
Proof. intros H. rewrite transform_transform. now apply transform_ext. Qed.

Context {loc : Locale}.

Lemma containsKeyword_iff (f k : string) :
  containsKeyword f k = true <->
  Str.Substring (Str.transform lc_tolower k) (Str.transform lc_tolower f).
Proof.
  unfold containsKeyword, Str.find. rewrite <- (find_from_found 0).
  destruct (Str.find_from 0 _ _) as [n|].
  - split; [intros _; now exists n | reflexivity].
  - split; [discriminate | intros [n H]; discriminate].
Qed.


Lemma containsKeyword_recased_keyword (g : ascii -> ascii) (f k : string) :
  (forall c, lc_tolower (g c) = lc_tolower c) ->
  containsKeyword f (Str.transform g k) = containsKeyword f k.
Proof. intros H. unfold containsKeyword. now rewrite (transform_cancel _ _ _ H). Qed.

End StringFacts.

(** ** The directory scan *)

Section ScanFacts.

Context {FS : Type} {host : Host FS} {loc : Locale}.

Lemma matching_cons (e : directory_entry) (rest : list directory_entry) (kw : string) :
  matching (e :: rest) kw =
  if (is_directory e && containsKeyword (filename (path e)) kw)%bool
  then path e :: matching rest kw else matching rest kw.
Proof.
  unfold matching; simpl.
  now destruct (is_directory e && containsKeyword (filename (path e)) kw)%bool.
Qed.

(** The loop computes [matching], leaves the file system alone and prints
    one line per match when verbose. *)
Lemma scan_entries_spec (entries : list directory_entry) (config : Config) :
  forall (acc : list string) (fs : FS),
    scan_entries entries config acc fs =
    (Value (acc ++ matching entries (keyword config)), fs, found_lines entries config).
Proof.
  induction entries as [|e rest IH]; intros acc fs.
  - simpl. unfold ret, found_lines, matching. simpl.
    rewrite app_nil_r. now destruct (verbose config).
  - cbn [scan_entries]. unfold found_lines in *. rewrite matching_cons.
    destruct (is_directory e); cbn [andb].
    + destruct (containsKeyword (filename (path e)) (keyword config)).
      * unfold bind, when, print, emit, ret.
        destruct (verbose config); rewrite IH, <- app_assoc; reflexivity.
      * apply IH.
    + apply IH.
Qed.

Lemma scan_spec (root : string) (config : Config) (fs : FS) :
  scan root config fs =
  match directory_iterator fs root with
  | (entries, None) =>
      (Value (matching entries (keyword config)), fs,
       ListDir root :: found_lines entries config)
  | (entries, Some what) =>
      (Thrown what, fs, ListDir root :: found_lines entries config)
  end.
Proof.
  unfold scan. destruct (directory_iterator fs root) as [entries [what|]];
    unfold bind, emit, throw, ret; rewrite scan_entries_spec; simpl;
    now rewrite app_nil_r.
Qed.


End ScanFacts.





(** ** The argument parser *)

Section ParserFacts.

(** A well-formed sequence of options is consumed without output, and the
    loop goes on with what follows it. *)
Lemma parse_loop_items (items : list item) (rest : list string) :
  forall config,
    parse_loop (tokens_of items ++ rest) config =
    parse_loop rest (fold_left apply_item items config).
Proof.
  induction items as [|i items IH]; intros config; [reflexivity|].
  destruct i as [[] | [] [] value]; simpl; apply IH.
Qed.

(** Conversely, the loop runs to its end only on such a sequence. *)
Lemma parse_loop_accepts (n : nat) :
  forall args config config' out,
    List.length args <= n ->
    parse_loop args config = (true, config', out) ->
    exists items,
      args = tokens_of items /\ config' = fold_left apply_item items config /\ out = [].
Proof.
  induction n as [|n IH]; intros [|arg rest] config config' out Hlen H;
    try (simpl in Hlen; lia);
    try (injection H as <- <-; exists []; auto).
  cbn [parse_loop] in H. simpl in Hlen.
  destruct ((arg =? "-h") || (arg =? "--help"))%bool; [discriminate|].
  destruct ((arg =? "-v") || (arg =? "--verbose"))%bool eqn:Ev.
  { apply IH in H; [|lia]. destruct H as [items [-> [-> ->]]].
    apply orb_true_iff in Ev. destruct Ev as [Ev|Ev]; apply String.eqb_eq in Ev; subst arg.
    - now exists (Verbose false :: items).
    - now exists (Verbose true :: items). }
  destruct ((arg =? "-k") || (arg =? "--keyword"))%bool eqn:Ek.
  { destruct rest as [|value rest]; [discriminate|]. simpl in Hlen.
    apply IH in H; [|lia]. destruct H as [items [-> [-> ->]]].
    apply orb_true_iff in Ek. destruct Ek as [Ek|Ek]; apply String.eqb_eq in Ek; subst arg.
    - now exists (Valued OptKeyword false value :: items).
    - now exists (Valued OptKeyword true value :: items). }
  destruct ((arg =? "-n") || (arg =? "--newname"))%bool eqn:En.
  { destruct rest as [|value rest]; [discriminate|]. simpl in Hlen.
    apply IH in H; [|lia]. destruct H as [items [-> [-> ->]]].
    apply orb_true_iff in En. destruct En as [En|En]; apply String.eqb_eq in En; subst arg.
    - now exists (Valued OptNewName false value :: items).
    - now exists (Valued OptNewName true value :: items). }
  destruct ((arg =? "-c") || (arg =? "--command"))%bool eqn:Ec; [|discriminate].
  destruct rest as [|value rest]; [discriminate|]. simpl in Hlen.
  apply IH in H; [|lia]. destruct H as [items [-> [-> ->]]].
  apply orb_true_iff in Ec. destruct Ec as [Ec|Ec]; apply String.eqb_eq in Ec; subst arg.
  - now exists (Valued OptCommand false value :: items).
  - now exists (Valued OptCommand true value :: items).
Qed.

(** The loop writes only to the console. *)
Lemma parse_loop_outputs (args : list string) :
  forall n config, List.length args <= n ->
    forallb is_output (snd (parse_loop args config)) = true.
Proof.
  intros n; revert args.
  induction n as [|n IH]; intros [|arg rest] config Hlen;
    try (simpl in Hlen; lia); try reflexivity.
  cbn [parse_loop]. simpl in Hlen.
  destruct ((arg =? "-h") || (arg =? "--help"))%bool; [reflexivity|].
  destruct ((arg =? "-v") || (arg =? "--verbose"))%bool; [apply IH; lia|].
  destruct ((arg =? "-k") || (arg =? "--keyword"))%bool;
    [destruct rest; [reflexivity | apply IH; simpl in Hlen; lia]|].
  destruct ((arg =? "-n") || (arg =? "--newname"))%bool;
    [destruct rest; [reflexivity | apply IH; simpl in Hlen; lia]|].
  destruct ((arg =? "-c") || (arg =? "--command"))%bool;
    [destruct rest; [reflexivity | apply IH; simpl in Hlen; lia]|].
  reflexivity.
Qed.

Lemma parseArguments_outputs (argv : list string) (config : Config) :
  forallb is_output (snd (parseArguments argv config)) = true.
Proof.
  unfold parseArguments.
  pose proof (parse_loop_outputs (tl argv) config (le_n _)) as H.
  destruct (parse_loop (tl argv) config) as [[[] c] out]; simpl in *; trivial.
  destruct (Str.empty (keyword c) || Str.empty (newName c))%bool; simpl; trivial.
  rewrite forallb_app, H. reflexivity.
Qed.

(** What acceptance means. *)
Lemma parseArguments_accepts (argv : list string) (config0 config : Config)
    (out : list event) :
  parseArguments argv config0 = (true, config, out) ->
  exists items,
    tl argv = tokens_of items /\ config = fold_left apply_item items config0 /\
    out = [] /\ keyword config <> "" /\ newName config <> "".
Proof.
  unfold parseArguments.
  destruct (parse_loop (tl argv) config0) as [[[] c] o] eqn:E; [|discriminate].
  eapply parse_loop_accepts in E; [|apply le_n]. destruct E as [items [Hargs [Hc Ho]]].
  destruct (keyword c) eqn:K; simpl; [discriminate|].
  destruct (newName c) eqn:N; simpl; [discriminate|].
  intros H; injection H as <- <-. exists items.
  rewrite K, N. repeat split; trivial; discriminate.
Qed.

(** [command] is written only together with [executeCommand]. *)
Lemma command_set_with_flag (items : list item) :
  forall config,
    (executeCommand config = false -> command config = "") ->
    executeCommand (fold_left apply_item items config) = false ->
    command (fold_left apply_item items config) = "".
Proof.
  induction items as [|i items IH]; intros config Hinv; [exact Hinv|].
  simpl. apply IH. destruct i as [long | [] long value]; simpl; trivial.
  discriminate.
Qed.

Lemma last_value_from_seen (o : value_option) (items : list item) :
  forall seen,
    last_value_from seen o items =
    match last_value o items with Some v => Some v | None => seen end.
Proof.
  unfold last_value. induction items as [|i items IH]; intros seen; [reflexivity|].
  destruct i as [long | o' long value]; simpl; [apply IH|].
  rewrite (IH (if value_option_eqb o o' then Some value else seen)).
  rewrite (IH (if value_option_eqb o o' then Some value else None)).
  destruct (last_value_from None o items); [reflexivity|].
  now destruct (value_option_eqb o o').
Qed.

(** The fields after a sequence of options: the last value of each
    value-taking option, or what the field held before. *)
Lemma apply_items_fields (items : list item) :
  forall config,
    let config' := fold_left apply_item items config in
    keyword config' =
      match last_value OptKeyword items with Some v => v | None => keyword config end /\
    newName config' =
      match last_value OptNewName items with Some v => v | None => newName config end /\
    command config' =
      match last_value OptCommand items with Some v => v | None => command config end /\
    executeCommand config' =
      (is_some (last_value OptCommand items) || executeCommand config)%bool /\
    verbose config' = (existsb is_verbose items || verbose config)%bool.
Proof.
  induction items as [|i items IH]; intros config; [simpl; auto|].
  cbn zeta in *. cbn [fold_left].
  destruct (IH (apply_item config i)) as [Hk [Hn [Hc [He Hv]]]].
  rewrite Hk, Hn, Hc, He, Hv. unfold last_value. cbn [last_value_from existsb].
  destruct i as [long | [] long value]; cbn [value_option_eqb is_verbose apply_item];
    rewrite ?last_value_from_seen; unfold last_value;
    repeat split;
    try (destruct (last_value_from None _ items); simpl; reflexivity);
    simpl; rewrite ?orb_true_r; reflexivity.
Qed.

End ParserFacts.

(** C3 (as amended): when a [-h] or [--help] token is preceded only by
    well-formed options ([-v]/[--verbose], or a value-taking option with its
    value token), whatever follows it, the program prints the usage text and
    nothing else, makes no call to the file system or the command
    interpreter, leaves the file system as it was, and returns 1. *)
Theorem help_prints_usage_and_returns_1
    {FS : Type} {host : Host FS} {loc : Locale} (fs : FS) (arg0 : string) (items : list item)
    (h : string) (rest : list string)
    (Hh : is_help h = true) :
  main (Ok loc) (arg0 :: tokens_of items ++ h :: rest) fs =
  (Returned 1%Z, fs, [Output Cout MsgUsage]).
Proof.
  unfold main, parseArguments. cbn [tl].
  rewrite parse_loop_items. cbn [parse_loop].
  unfold is_help in Hh. rewrite Hh. reflexivity.
Qed.

(** C3, on [-v -k -h --help -n x]: the first [-h] is the keyword, the
    [--help] after it is reached. *)
Lemma help_prints_usage_and_returns_1_witness :
  is_help "--help" = true /\
  main (Ok c_locale) ["rename_folders"; "-v"; "-k"; "-h"; "--help"; "-n"; "x"] dir_temp =
  (Returned 1%Z, dir_temp, [Output Cout MsgUsage]).
Proof.
  split; [reflexivity|].
  exact (help_prints_usage_and_returns_1 dir_temp "rename_folders"
           [Verbose false; Valued OptKeyword false "-h"] "--help" ["-n"; "x"] eq_refl).
Defined.

(** C3 as stated fails: [-h] alone returns 1, not 0; and in
    [-k -h -n x] the token [-h] is taken as the keyword, so the directory is
    scanned and no usage text is printed. *)
Lemma help_returns_0_counterexample :
  (In "-h" ["-h"] /\
   ~ exists fs' out, main (Ok c_locale) ["rename_folders"; "-h"] dir_temp = (Returned 0%Z, fs', out)) /\
  (In "-h" ["-k"; "-h"; "-n"; "x"] /\
   main (Ok c_locale) ["rename_folders"; "-k"; "-h"; "-n"; "x"] dir_temp =
   (Returned 0%Z, dir_temp, [ListDir "."; Output Cout (MsgNoMatch "-h")])).
Proof.
  split; split.
  - simpl; auto.
  - intros [fs' [out H]]. vm_compute in H. discriminate.
  - simpl; auto.
  - vm_compute. reflexivity.
Qed.

(** C8: a [Config] the parser accepts, written back as
    [-k keyword -n newName [-c command] [-v]] and parsed again from a fresh
    [Config], is accepted and gives the same five fields. *)
Theorem parse_serialize_roundtrip
    (argv : list string) (config : Config) (out : list event) (arg0 : string)
    (Haccepted : parseArguments argv default_config = (true, config, out)) :
  keyword config <> "" /\ newName config <> "" /\
  parseArguments (arg0 :: serialize config) default_config = (true, config, []).
Proof.
  apply parseArguments_accepts in Haccepted.
  destruct Haccepted as [items [_ [Hc [_ [Hk Hn]]]]].
  pose proof (@command_set_with_flag items default_config (fun _ => eq_refl)) as Hcmd.
  rewrite <- Hc in Hcmd. clear Hc.
  split; [exact Hk | split; [exact Hn|]].
  destruct config as [k n cmd ex v]. simpl in *.
  destruct k as [|k0 k]; [congruence|]. destruct n as [|n0 n]; [congruence|].
  destruct ex, v; try rewrite (Hcmd eq_refl); reflexivity.
Qed.

(** C8, on [--newname final -v --keyword temp -c ls]. *)
Lemma parse_serialize_roundtrip_witness :
  parseArguments ["rename_folders"; "--newname"; "final"; "-v"; "--keyword"; "temp"; "-c"; "ls"]
    default_config = (true, mkConfig "temp" "final" "ls" true true, []) /\
  parseArguments ["rename_folders"; "-k"; "temp"; "-n"; "final"; "-c"; "ls"; "-v"]
    default_config = (true, mkConfig "temp" "final" "ls" true true, []).
Proof.
  split; [reflexivity|].
  exact (proj2 (proj2 (@parse_serialize_roundtrip
    ["rename_folders"; "--newname"; "final"; "-v"; "--keyword"; "temp"; "-c"; "ls"]
    (mkConfig "temp" "final" "ls" true true) [] "rename_folders" eq_refl))).
Defined.

(** C10 (as amended): on an argument list made only of well-formed options
    in which [-k]/[--keyword] and [-n]/[--newname] each occur and their last
    values are not empty, parsing succeeds without output, however often an
    option is repeated, and [keyword], [newName] and [command] hold the value
    of the last occurrence of their option. *)
Theorem repeated_option_last_value
    (arg0 : string) (items : list item) (kw nn : string)
    (Hk : last_value OptKeyword items = Some kw) (Hkw : kw <> "")
    (Hn : last_value OptNewName items = Some nn) (Hnn : nn <> "") :
  parseArguments (arg0 :: tokens_of items) default_config =
  (true,
   mkConfig kw nn (or_empty (last_value OptCommand items))
            (is_some (last_value OptCommand items)) (existsb is_verbose items),
   []).
Proof.
  unfold parseArguments. cbn [tl].
  rewrite <- (app_nil_r (tokens_of items)), parse_loop_items. cbn [parse_loop].
  destruct (apply_items_fields items default_config) as [Ek [En [Ec [Ee Ev]]]].
  cbn zeta in *. rewrite Hk in Ek. rewrite Hn in En. simpl in Ec, Ee, Ev.
  rewrite orb_false_r in Ee, Ev.
  destruct (fold_left apply_item items default_config) as [k n cmd ex v].
  simpl in *. subst k n cmd ex v.
  destruct kw; [congruence|]. destruct nn; [congruence|].
  simpl. unfold or_empty. now destruct (last_value OptCommand items).
Qed.

(** C10, on [-k a --keyword b -n x -c one -n y -c two]. *)
Lemma repeated_option_last_value_witness :
  parseArguments
    ["rename_folders"; "-k"; "a"; "--keyword"; "b"; "-n"; "x"; "-c"; "one";
     "-n"; "y"; "-c"; "two"] default_config =
  (true, mkConfig "b" "y" "two" true false, []).
Proof.
  refine (@repeated_option_last_value "rename_folders"
    [Valued OptKeyword false "a"; Valued OptKeyword true "b";
     Valued OptNewName false "x"; Valued OptCommand false "one";
     Valued OptNewName false "y"; Valued OptCommand false "two"]
    "b" "y" eq_refl _ eq_refl _); discriminate.
Defined.

(** C10 as stated fails: in [-k a -k b] the option [-k] occurs twice, each
    time with a value token, and parsing does not succeed, because no new
    name is given. *)
Lemma repeated_option_counterexample :
  ["-k"; "a"; "-k"; "b"] =
    tokens_of [Valued OptKeyword false "a"; Valued OptKeyword false "b"] /\
  parseArguments ["rename_folders"; "-k"; "a"; "-k"; "b"] default_config =
  (false, mkConfig "b" "" "" false false,
   [Output Cerr MsgRequiredMissing; Output Cout MsgUsage]).
Proof. split; reflexivity. Qed.

(** ** The driver *)

Section DriverFacts.

Context {FS : Type} {host : Host FS} {loc : Locale}.

Lemma main_run_cases (config : Config) (fs : FS) :
  main_run config fs = run_cases config fs.
Proof.
  unfold main_run, main_try, run_cases, scan_events, header_lines, done_lines,
    command_events, executeExternalCommand.
  destruct (verbose config) eqn:Ev, (executeCommand config) eqn:Ee;
  unfold try_catch, bind, when, print, emit, ret, return_, exists_, rename, std_system;
  rewrite scan_spec;
  destruct (directory_iterator fs ".") as [entries [what|]];
  try (simpl; rewrite <- ?app_assoc; reflexivity).
  all: destruct (matching entries (keyword config)) as [|oldPath [|another more]];
  try (simpl; rewrite <- ?app_assoc; reflexivity).
  all: cbn [List.length Nat.eqb Nat.ltb Nat.leb nth].
  all: destruct (fs_exists fs (newName config)) as [[]|what];
  try (simpl; rewrite <- ?app_assoc; reflexivity).
  all: destruct (fs_rename fs oldPath (newName config)) as [fs1|what];
  try (simpl; rewrite <- ?app_assoc; reflexivity).
  all: destruct (system fs1 (command config)) as [status fs2];
    destruct (status =? 0)%Z; simpl; rewrite <- ?app_assoc; reflexivity.
Qed.

Lemma main_cases (argv : list string) (fs : FS) :
  main (Ok loc) argv fs =
  match parseArguments argv default_config with
  | (false, _, out) => (Returned 1%Z, fs, out)
  | (true, config, out) =>
      match run_cases config fs with (o, fs', t) => (o, fs', out ++ t) end
  end.
Proof.
  unfold main. destruct (parseArguments argv default_config) as [[[] config] out];
    unfold bind, emit, when, return_, ret; simpl.
  - rewrite main_run_cases. now destruct (run_cases config fs) as [[o fs'] t].
  - now rewrite app_nil_r.
Qed.

(** An environment that names no locale the runtime knows: the exception
    of [setConsoleEncoding] leaves [main] before anything else is done. *)
Lemma main_startup_failure (what : string) (argv : list string) (fs : FS) :
  main (Error what) argv fs = (Thrown what, fs, []).
Proof. reflexivity. Qed.

(** An accepted command line followed by its run. *)
Lemma main_accepted (argv : list string) (config : Config) (out : list event) (fs : FS) :
  parseArguments argv default_config = (true, config, out) ->
  main (Ok loc) argv fs = run_cases config fs.
Proof.
  intros H. rewrite main_cases, H.
  apply parseArguments_accepts in H. destruct H as [_ [_ [_ [-> _]]]].
  now destruct (run_cases config fs) as [[o fs'] t].
Qed.

Lemma count_app (p : event -> bool) (t1 t2 : list event) :
  count p (t1 ++ t2) = count p t1 + count p t2.
Proof. unfold count. now rewrite filter_app, length_app. Qed.

Lemma count_progress (p : event -> bool) (t : list event) :
  (forall e, is_progress e = true -> p e = false) ->
  forallb is_progress t = true -> count p t = 0.
Proof.
  intros Hp. unfold count. induction t as [|e t IH]; simpl; [reflexivity|].
  intros H. apply andb_true_iff in H. destruct H as [He Ht].
  rewrite (Hp e He). now apply IH.
Qed.

Lemma scan_events_progress (config : Config) (entries : list directory_entry) :
  forallb is_progress (scan_events config entries) = true.
Proof.
  unfold scan_events, header_lines, found_lines.
  rewrite forallb_app. apply andb_true_iff. split.
  - now destruct (verbose config), (executeCommand config).
  - simpl. destruct (verbose config); [|reflexivity].
    induction (matching entries (keyword config)); simpl; trivial.
Qed.

Lemma progress_not_rename (e : event) : is_progress e = true -> is_rename e = false.
Proof. destruct e; simpl; trivial; discriminate. Qed.

Lemma progress_not_system (e : event) : is_progress e = true -> is_system e = false.
Proof. destruct e; simpl; trivial; discriminate. Qed.

Lemma progress_not_halt (e : event) : is_progress e = true -> halts_run e = false.
Proof. destruct e as [[] []| | | |]; simpl; trivial; discriminate. Qed.

Lemma scan_events_no_rename (config : Config) (entries : list directory_entry) :
  count is_rename (scan_events config entries) = 0.
Proof. apply count_progress; [apply progress_not_rename | apply scan_events_progress]. Qed.

Lemma scan_events_no_system (config : Config) (entries : list directory_entry) :
  count is_system (scan_events config entries) = 0.
Proof. apply count_progress; [apply progress_not_system | apply scan_events_progress]. Qed.

Lemma scan_events_no_halt (config : Config) (entries : list directory_entry) :
  count halts_run (scan_events config entries) = 0.
Proof. apply count_progress; [apply progress_not_halt | apply scan_events_progress]. Qed.

End DriverFacts.

Ltac no_calls :=
  rewrite ?count_app, ?scan_events_no_rename, ?scan_events_no_system,
    ?scan_events_no_halt;
  reflexivity.

(** C7: when the command line is accepted and the scan of the working
    directory ends normally with no match, the run reports "no match",
    returns 0, calls neither [fs::rename] nor [std::system], and leaves the
    file system as it was. *)
Theorem no_match_returns_0
    {FS : Type} {host : Host FS} {loc : Locale} (argv : list string) (fs : FS)
    (config : Config) (out : list event) (entries : list directory_entry)
    (Hparse : parseArguments argv default_config = (true, config, out))
    (Hlist : directory_iterator fs "." = (entries, None))
    (Hnone : matching entries (keyword config) = []) :
  let t := scan_events config entries ++ [Output Cout (MsgNoMatch (keyword config))] in
  main (Ok loc) argv fs = (Returned 0%Z, fs, t) /\
  count is_rename t = 0 /\ count is_system t = 0.
Proof.
  cbn zeta. erewrite main_accepted by exact Hparse. unfold run_cases.
  rewrite Hlist, Hnone. repeat split; no_calls.
Qed.

(** C7, on the directories [old_temp] and [old_backup] with keyword [xyz]. *)
Lemma no_match_returns_0_witness :
  main (Ok c_locale) ["rename_folders"; "-k"; "xyz"; "-n"; "final"] dir_old =
  (Returned 0%Z, dir_old, [ListDir "."; Output Cout (MsgNoMatch "xyz")]).
Proof.
  exact (proj1 (@no_match_returns_0 _ _ c_locale
    ["rename_folders"; "-k"; "xyz"; "-n"; "final"] dir_old
    (mkConfig "xyz" "final" "" false false) []
    [mkEntry "./old_temp" true; mkEntry "./old_backup" true]
    eq_refl eq_refl eq_refl)).
Defined.

(** C1: when the command line is accepted and the scan of the working
    directory ends normally with more than one match, the run prints the
    warning with the number of matches, returns 1, calls neither
    [fs::rename] nor [std::system], and leaves the file system as it was. *)
Theorem ambiguous_match_returns_1
    {FS : Type} {host : Host FS} {loc : Locale} (argv : list string) (fs : FS)
    (config : Config) (out : list event) (entries : list directory_entry)
    (Hparse : parseArguments argv default_config = (true, config, out))
    (Hlist : directory_iterator fs "." = (entries, None))
    (Hmany : 1 < List.length (matching entries (keyword config))) :
  let t := scan_events config entries ++
           [Output Cout (MsgAmbiguous (List.length (matching entries (keyword config))))] in
  main (Ok loc) argv fs = (Returned 1%Z, fs, t) /\
  count is_rename t = 0 /\ count is_system t = 0.
Proof.
  cbn zeta. erewrite main_accepted by exact Hparse. unfold run_cases. rewrite Hlist.
  destruct (matching entries (keyword config)) as [|oldPath [|another more]];
    simpl in Hmany; try lia.
  repeat split; no_calls.
Qed.

(** C1, on the directories [old_temp] and [old_backup] with keyword [old]. *)
Lemma ambiguous_match_returns_1_witness :
  main (Ok c_locale) ["rename_folders"; "-k"; "old"; "-n"; "new"] dir_old =
  (Returned 1%Z, dir_old, [ListDir "."; Output Cout (MsgAmbiguous 2)]).
Proof.
  refine (proj1 (@ambiguous_match_returns_1 _ _ c_locale
    ["rename_folders"; "-k"; "old"; "-n"; "new"] dir_old
    (mkConfig "old" "new" "" false false) []
    [mkEntry "./old_temp" true; mkEntry "./old_backup" true]
    eq_refl eq_refl _)).
  simpl. lia.
Defined.

(** C2: when the command line is accepted, the scan ends normally with
    exactly one match and [fs::exists] answers that the new name exists, the
    run reports that the target exists, returns 1, calls neither
    [fs::rename] nor [std::system], and leaves the file system as it was. *)
Theorem target_exists_returns_1
    {FS : Type} {host : Host FS} {loc : Locale} (argv : list string) (fs : FS)
    (config : Config) (out : list event) (entries : list directory_entry)
    (oldPath : string)
    (Hparse : parseArguments argv default_config = (true, config, out))
    (Hlist : directory_iterator fs "." = (entries, None))
    (Hone : matching entries (keyword config) = [oldPath])
    (Hexists : fs_exists fs (newName config) = Ok true) :
  let t := scan_events config entries ++
           [Exists (newName config); Output Cerr (MsgTargetExists (newName config))] in
  main (Ok loc) argv fs = (Returned 1%Z, fs, t) /\
  count is_rename t = 0 /\ count is_system t = 0.
Proof.
  cbn zeta. erewrite main_accepted by exact Hparse. unfold run_cases.
  rewrite Hlist, Hone, Hexists. repeat split; no_calls.
Qed.

(** C2, on the directories [temp_project] and [final]. *)
Lemma target_exists_returns_1_witness :
  main (Ok c_locale) ["rename_folders"; "-k"; "temp"; "-n"; "final"] dir_temp_final =
  (Returned 1%Z, dir_temp_final,
   [ListDir "."; Exists "final"; Output Cerr (MsgTargetExists "final")]).
Proof.
  exact (proj1 (@target_exists_returns_1 _ _ c_locale
    ["rename_folders"; "-k"; "temp"; "-n"; "final"] dir_temp_final
    (mkConfig "temp" "final" "" false false) []
    [mkEntry "./temp_project" true; mkEntry "./final" true] "./temp_project"
    eq_refl eq_refl eq_refl eq_refl)).
Defined.

(** C5: when the rename has succeeded and the follow-up command returns a
    status other than 0, the run reports that status, returns 1 whatever the
    status is, has called [fs::rename] exactly once (no second rename undoes
    the first), and ends on the file system the command left when started on
    the renamed one. *)
Theorem command_failure_returns_1
    {FS : Type} {host : Host FS} {loc : Locale} (argv : list string) (fs fs1 fs2 : FS)
    (config : Config) (out : list event) (entries : list directory_entry)
    (oldPath : string) (status : Z)
    (Hparse : parseArguments argv default_config = (true, config, out))
    (Hlist : directory_iterator fs "." = (entries, None))
    (Hone : matching entries (keyword config) = [oldPath])
    (Hexists : fs_exists fs (newName config) = Ok false)
    (Hrename : fs_rename fs oldPath (newName config) = Ok fs1)
    (Hflag : executeCommand config = true)
    (Hsystem : system fs1 (command config) = (status, fs2))
    (Hstatus : status <> 0%Z) :
  let t := scan_events config entries ++
           [Exists (newName config); Rename oldPath (newName config) true;
            Output Cout (MsgRenamed (filename oldPath) (newName config))] ++
           command_events config status in
  main (Ok loc) argv fs = (Returned 1%Z, fs2, t) /\
  In (Output Cerr (MsgCommandFailed status)) t /\
  count is_rename t = 1 /\ count is_system t = 1.
Proof.
  cbn zeta. erewrite main_accepted by exact Hparse. unfold run_cases.
  rewrite Hlist, Hone, Hexists, Hrename, Hflag, Hsystem.
  apply Z.eqb_neq in Hstatus. rewrite Hstatus.
  split; [now rewrite <- app_assoc|].
  unfold command_events. rewrite Hstatus.
  split.
  - apply in_or_app. right. destruct (verbose config); simpl; auto 10.
  - destruct (verbose config); split; no_calls.
Qed.

(** C5, on the directory [temp_project] with the command [exit 1]: the
    directory is called [final] when the run ends. *)
Lemma command_failure_returns_1_witness :
  main (Ok c_locale) ["rename_folders"; "-k"; "temp"; "-n"; "final"; "-c"; "exit 1"] dir_temp =
  (Returned 1%Z, [("final", true); ("notes.txt", false)],
   [ListDir "."; Exists "final"; Rename "./temp_project" "final" true;
    Output Cout (MsgRenamed "temp_project" "final"); Output Cout MsgRunningExtra;
    System "exit 1"; Output Cerr (MsgCommandFailed 1)]).
Proof.
  refine (proj1 (@command_failure_returns_1 _ _ c_locale
    ["rename_folders"; "-k"; "temp"; "-n"; "final"; "-c"; "exit 1"] dir_temp
    [("final", true); ("notes.txt", false)] [("final", true); ("notes.txt", false)]
    (mkConfig "temp" "final" "exit 1" true false) []
    [mkEntry "./temp_project" true; mkEntry "./notes.txt" false] "./temp_project" 1%Z
    eq_refl eq_refl eq_refl eq_refl eq_refl eq_refl eq_refl _)).
  discriminate.
Defined.

(** ** The follow-up command *)

Section CommandFacts.

Context {FS : Type} {host : Host FS} {loc : Locale}.

Lemma in_count (p : event -> bool) (e : event) (t : list event) :
  In e t -> p e = true -> count p t <> 0.
Proof.
  unfold count. induction t as [|e' t IH]; simpl; [tauto|].
  intros [->|Hin] He.
  - rewrite He. discriminate.
  - destruct (p e'); [discriminate | now apply IH].
Qed.

Lemma outputs_no_system (t : list event) :
  forallb is_output t = true -> count is_system t = 0.
Proof.
  unfold count. induction t as [|e t IH]; simpl; [reflexivity|].
  intros H. apply andb_true_iff in H. destruct H as [He Ht].
  destruct e; try discriminate. simpl. now apply IH.
Qed.

(** Where a run of [run_cases] starts a command. *)
Lemma run_cases_command (config : Config) (fs fs' : FS) (o : outcome unit)
    (t : list event) :
  run_cases config fs = (o, fs', t) ->
  count is_system t <= 1 /\
  forall cmd, In (System cmd) t ->
    executeCommand config = true /\ cmd = command config /\
    count halts_run t = 0 /\
    exists oldPath pre post,
      t = pre ++ Rename oldPath (newName config) true :: post /\
      count is_system pre = 0 /\ In (System cmd) post.
Proof.
  unfold run_cases, command_events, done_lines.
  destruct (directory_iterator fs ".") as [entries [what|]].
  2: destruct (matching entries (keyword config)) as [|oldPath [|another more]].
  3: destruct (fs_exists fs (newName config)) as [[]|what].
  4: destruct (fs_rename fs oldPath (newName config)) as [fs1|what].
  4: destruct (executeCommand config) eqn:Ee.
  4: destruct (system fs1 (command config)) as [status fs2];
     destruct (status =? 0)%Z.
  all: intros H; injection H as <- <- <-.
  all: destruct (verbose config); rewrite <- ?app_assoc; cbn [app].
  all: match goal with
       | |- count is_system ?T <= 1 /\ _ =>
           first
             [ assert (Hnone : count is_system T = 0) by no_calls;
               split;
               [ rewrite Hnone; lia
               | intros cmd Hin; exfalso;
                 exact (@in_count is_system _ _ Hin eq_refl Hnone) ]
             | idtac ]
       end.
  all: split; [rewrite count_app, scan_events_no_system; unfold count; simpl; lia|].
  all: intros cmd Hin; apply in_app_or in Hin; destruct Hin as [Hin|Hin];
    [ exfalso;
      exact (@in_count is_system _ _ Hin eq_refl (scan_events_no_system _ _)) |].
  all: simpl in Hin; repeat (destruct Hin as [Hin|Hin]; try discriminate);
    try contradiction; injection Hin as <-.
  all: split; [reflexivity | split; [reflexivity | split; [no_calls|]]].
  all: exists oldPath, (scan_events config entries ++ [Exists (newName config)]);
    eexists; split; [rewrite <- app_assoc; reflexivity | split; [no_calls|]];
    simpl; auto 10.
Qed.

Lemma executeCommand_last_value (items : list item) (config : Config) :
  config = fold_left apply_item items default_config ->
  executeCommand config = true ->
  last_value OptCommand items = Some (command config).
Proof.
  intros -> H.
  destruct (apply_items_fields items default_config) as [_ [_ [Ec [Ee _]]]].
  cbn zeta in *. rewrite Ee in H. rewrite Ec.
  destruct (last_value OptCommand items); [reflexivity | discriminate].
Qed.

End CommandFacts.

(** C6: a run, in any environment, starts at most one command; and when it starts one, the
    command line was accepted, its last [-c]/[--command] option gave that
    command and set [executeCommand], a successful [fs::rename] precedes the
    command in the trace with no other command before it, and the run
    contains no report of no match, of several matches, of an existing
    target or of a file-system error, and no failed rename. *)
Theorem command_runs_once_after_rename
    {FS : Type} {host : Host FS} (env : result Locale) (argv : list string) (fs fs' : FS)
    (o : outcome unit) (t : list event)
    (Hrun : main env argv fs = (o, fs', t)) :
  count is_system t <= 1 /\
  forall cmd, In (System cmd) t ->
    (exists config items,
        parseArguments argv default_config = (true, config, []) /\
        executeCommand config = true /\ command config = cmd /\
        tl argv = tokens_of items /\ last_value OptCommand items = Some cmd /\
        exists oldPath pre post,
          t = pre ++ Rename oldPath (newName config) true :: post /\
          count is_system pre = 0 /\ In (System cmd) post) /\
    count halts_run t = 0.
Proof.
  destruct env as [loc|what];
    [|rewrite main_startup_failure in Hrun; injection Hrun as <- <- <-; split; [unfold count; simpl; lia | intros cmd []]].
  rewrite main_cases in Hrun.
  destruct (parseArguments argv default_config) as [[[] config] out] eqn:Hparse.
  - destruct (parseArguments_accepts _ _ Hparse) as [items [Hargs [Hc [-> _]]]].
    destruct (run_cases config fs) as [[o1 fs1] t1] eqn:Hcases.
    injection Hrun as <- <- <-. simpl.
    destruct (run_cases_command _ _ Hcases) as [Hle Hcmd].
    split; [exact Hle|]. intros cmd Hin.
    destruct (Hcmd cmd Hin) as [Hflag [-> [Hhalt Hshape]]].
    split; [|exact Hhalt].
    exists config, items. repeat split; trivial.
    now apply executeCommand_last_value.
  - injection Hrun as <- <- <-.
    pose proof (parseArguments_outputs argv default_config) as Houts.
    rewrite Hparse in Houts. simpl in Houts.
    apply outputs_no_system in Houts.
    split; [lia|]. intros cmd Hin. exfalso.
    exact (@in_count is_system _ _ Hin eq_refl Houts).
Qed.

(** C6, on the directory [temp_project] with the command [exit 1]. *)
Lemma command_runs_once_after_rename_witness :
  main (Ok c_locale) ["rename_folders"; "-k"; "temp"; "-n"; "final"; "-c"; "exit 1"] dir_temp =
  (Returned 1%Z, [("final", true); ("notes.txt", false)],
   [ListDir "."; Exists "final"; Rename "./temp_project" "final" true;
    Output Cout (MsgRenamed "temp_project" "final"); Output Cout MsgRunningExtra;
    System "exit 1"; Output Cerr (MsgCommandFailed 1)]) /\
  count is_system
   [ListDir "."; Exists "final"; Rename "./temp_project" "final" true;
    Output Cout (MsgRenamed "temp_project" "final"); Output Cout MsgRunningExtra;
    System "exit 1"; Output Cerr (MsgCommandFailed 1)] <= 1.
Proof.
  split; [reflexivity|].
  exact (proj1 (@command_runs_once_after_rename _ _ (Ok c_locale)
    ["rename_folders"; "-k"; "temp"; "-n"; "final"; "-c"; "exit 1"] dir_temp
    _ _ _ eq_refl)).
Defined.

(** * Further properties *)

(** ** Rejected command lines *)

(** X1: A value-taking option that is the last token, after well-formed options:
    the parser reports the missing value on [std::cerr] and returns [false];
    the options before it have been written to the [Config]. *)
Theorem missing_value_is_rejected
    (arg0 : string) (items : list item) (o : value_option) (long : bool)
    (config0 : Config) :
  parseArguments (arg0 :: tokens_of items ++ [option_name o long]) config0 =
  (false, fold_left apply_item items config0,
   [Output Cerr (missing_value_message o)]).
Proof.
  unfold parseArguments. cbn [tl]. rewrite parse_loop_items.
  destruct o, long; reflexivity.
Qed.

(** X2: A token that is none of the ten option spellings, after well-formed
    options: the parser names it on [std::cerr] and returns [false], whatever
    follows it. *)
Theorem unknown_option_is_rejected
    (arg0 : string) (items : list item) (arg : string) (rest : list string)
    (config0 : Config)
    (Hunknown : recognised arg = false) :
  parseArguments (arg0 :: tokens_of items ++ arg :: rest) config0 =
  (false, fold_left apply_item items config0,
   [Output Cerr (MsgUnknownOption arg)]).
Proof.
  unfold parseArguments. cbn [tl]. rewrite parse_loop_items. cbn [parse_loop].
  unfold recognised in Hunknown.
  repeat (apply orb_false_iff in Hunknown; destruct Hunknown as [Hunknown ?H]).
  repeat match goal with H : (_ =? _) = false |- _ => rewrite H; clear H end.
  reflexivity.
Qed.

Lemma unknown_option_is_rejected_witness :
  parseArguments ["rename_folders"; "-k"; "old"; "--force"; "-n"; "new"] default_config =
  (false, mkConfig "old" "" "" false false, [Output Cerr (MsgUnknownOption "--force")]).
Proof.
  exact (@unknown_option_is_rejected "rename_folders" [Valued OptKeyword false "old"]
           "--force" ["-n"; "new"] default_config eq_refl).
Defined.

Section AcceptanceFacts.

Lemma parse_items_result (arg0 : string) (items : list item) (config0 : Config) :
  parseArguments (arg0 :: tokens_of items) config0 =
  let config := fold_left apply_item items config0 in
  if (Str.empty (keyword config) || Str.empty (newName config))%bool
  then (false, config, [Output Cerr MsgRequiredMissing; Output Cout MsgUsage])
  else (true, config, []).
Proof.
  unfold parseArguments. cbn [tl].
  rewrite <- (app_nil_r (tokens_of items)), parse_loop_items. reflexivity.
Qed.

Lemma empty_iff (s : string) : Str.empty s = true <-> s = "".
Proof. destruct s; simpl; split; congruence. Qed.

Lemma fresh_fields (items : list item) :
  let config := fold_left apply_item items default_config in
  keyword config = or_empty (last_value OptKeyword items) /\
  newName config = or_empty (last_value OptNewName items).
Proof.
  destruct (apply_items_fields items default_config) as [Hk [Hn _]].
  cbn zeta in *. rewrite Hk, Hn. unfold or_empty.
  now destruct (last_value OptKeyword items), (last_value OptNewName items).
Qed.

End AcceptanceFacts.

(** X3: Well-formed options without a usable keyword or new name (the option
    never given, or its last value empty): the parser prints the error and
    then the usage text, and returns [false]. The empty command line is the
    case [items = []]. *)
Theorem required_fields_are_enforced
    (arg0 : string) (items : list item)
    (Hmissing : or_empty (last_value OptKeyword items) = "" \/
                or_empty (last_value OptNewName items) = "") :
  parseArguments (arg0 :: tokens_of items) default_config =
  (false, fold_left apply_item items default_config,
   [Output Cerr MsgRequiredMissing; Output Cout MsgUsage]).
Proof.
  rewrite parse_items_result. cbn zeta.
  destruct (fresh_fields items) as [Hk Hn]. cbn zeta in *.
  assert (H : (Str.empty (keyword (fold_left apply_item items default_config))
               || Str.empty (newName (fold_left apply_item items default_config)))%bool
              = true).
  { apply orb_true_iff. rewrite !empty_iff, Hk, Hn. exact Hmissing. }
  now rewrite H.
Qed.

Lemma required_fields_are_enforced_witness :
  parseArguments ["rename_folders"; "-v"; "-n"; "new"; "-k"; "old"; "--keyword"; ""]
    default_config =
  (false, mkConfig "" "new" "" false true,
   [Output Cerr MsgRequiredMissing; Output Cout MsgUsage]).
Proof.
  exact (@required_fields_are_enforced "rename_folders"
           [Verbose false; Valued OptNewName false "new"; Valued OptKeyword false "old";
            Valued OptKeyword true ""] (or_introl eq_refl)).
Defined.

(** X4: The accepted command lines are exactly the sequences of well-formed
    options whose last keyword and last new name are both given and not
    empty. *)
Theorem accepted_iff_well_formed (arg0 : string) (args : list string) :
  (exists config out, parseArguments (arg0 :: args) default_config = (true, config, out)) <->
  (exists items,
      args = tokens_of items /\
      or_empty (last_value OptKeyword items) <> "" /\
      or_empty (last_value OptNewName items) <> "").
Proof.
  split.
  - intros [config [out H]]. apply parseArguments_accepts in H.
    destruct H as [items [Hargs [Hc [_ [Hk Hn]]]]]. exists items.
    destruct (fresh_fields items) as [Ek En]. cbn zeta in *.
    rewrite <- Hc in Ek, En. rewrite <- Ek, <- En. auto.
  - intros [items [-> [Hk Hn]]].
    exists (fold_left apply_item items default_config), [].
    rewrite parse_items_result. cbn zeta.
    destruct (fresh_fields items) as [Ek En]. cbn zeta in *.
    rewrite <- Ek in Hk. rewrite <- En in Hn.
    destruct (keyword _); [congruence|]. destruct (newName _); [congruence|].
    reflexivity.
Qed.

Section RejectionFacts.

Lemma parse_loop_rejection (n : nat) :
  forall args c c' o,
    List.length args <= n ->
    parse_loop args c = (false, c', o) ->
    o <> [] /\ forallb is_parser_line o = true.
Proof.
  induction n as [|n IH]; intros [|arg rest] c c' o Hlen H;
    try (simpl in Hlen; lia); try discriminate.
  cbn [parse_loop] in H. simpl in Hlen.
  destruct ((arg =? "-h") || (arg =? "--help"))%bool;
    [injection H as <- <-; split; [discriminate | reflexivity]|].
  destruct ((arg =? "-v") || (arg =? "--verbose"))%bool;
    [eapply IH; [|exact H]; lia|].
  destruct ((arg =? "-k") || (arg =? "--keyword"))%bool;
    [destruct rest; [injection H as <- <-; split; [discriminate | reflexivity]
                    | eapply IH; [|exact H]; simpl in Hlen; lia]|].
  destruct ((arg =? "-n") || (arg =? "--newname"))%bool;
    [destruct rest; [injection H as <- <-; split; [discriminate | reflexivity]
                    | eapply IH; [|exact H]; simpl in Hlen; lia]|].
  destruct ((arg =? "-c") || (arg =? "--command"))%bool;
    [destruct rest; [injection H as <- <-; split; [discriminate | reflexivity]
                    | eapply IH; [|exact H]; simpl in Hlen; lia]|].
  injection H as <- <-; split; [discriminate | reflexivity].
Qed.

Lemma rejection_report (argv : list string) (config0 config : Config) (out : list event) :
  parseArguments argv config0 = (false, config, out) ->
  out <> [] /\ forallb is_parser_line out = true.
Proof.
  unfold parseArguments.
  destruct (parse_loop (tl argv) config0) as [[[] c] o] eqn:E.
  - eapply parse_loop_accepts in E; [|apply le_n]. destruct E as [_ [_ [_ ->]]].
    destruct (Str.empty (keyword c) || Str.empty (newName c))%bool; [|discriminate].
    intros H; injection H as <- <-. split; [discriminate | reflexivity].
  - intros H; injection H as <- <-.
    eapply parse_loop_rejection; [apply le_n | exact E].
Qed.

Lemma parser_lines_diagnostic (t : list event) :
  forallb is_parser_line t = true -> forallb is_diagnostic t = true.
Proof.
  induction t as [|e t IH]; simpl; [reflexivity|].
  intros H. apply andb_true_iff in H. destruct H as [He Ht].
  rewrite (IH Ht), andb_true_r.
  destruct e as [[] []| | | |]; simpl in *; congruence.
Qed.

End RejectionFacts.

(** X5: Every rejection is reported: when the parser returns [false] it has
    written at least one line, every line it wrote is one of its five error
    texts on [std::cerr] or the usage text on [std::cout], and it did
    nothing but write. *)
Theorem rejection_is_reported
    (argv : list string) (config0 config : Config) (out : list event)
    (Hrejected : parseArguments argv config0 = (false, config, out)) :
  out <> [] /\ forallb is_output out = true /\ forallb is_parser_line out = true.
Proof.
  destruct (@rejection_report _ _ _ _ Hrejected) as [Hne Hdiag].
  pose proof (parseArguments_outputs argv config0) as Hout.
  rewrite Hrejected in Hout. auto.
Qed.

Lemma rejection_is_reported_witness :
  [Output Cerr MsgMissingNewName] <> [] /\
  forallb is_output [Output Cerr MsgMissingNewName] = true /\
  forallb is_parser_line [Output Cerr MsgMissingNewName] = true.
Proof.
  exact (@rejection_is_reported ["rename_folders"; "-k"; "old"; "-n"] default_config
           (mkConfig "old" "" "" false false) [Output Cerr MsgMissingNewName] eq_refl).
Defined.

(** ** Runs of the driver *)

Section RunFacts.

Context {FS : Type} {host : Host FS} {loc : Locale}.

Lemma host_calls_app (t1 t2 : list event) :
  host_calls (t1 ++ t2) = host_calls t1 ++ host_calls t2.
Proof. apply filter_app. Qed.

Lemma host_calls_outputs (t : list event) :
  forallb is_output t = true -> host_calls t = [].
Proof.
  unfold host_calls. induction t as [|e t IH]; simpl; [reflexivity|].
  intros H. apply andb_true_iff in H. destruct H as [He Ht].
  rewrite He. simpl. now apply IH.
Qed.

Lemma host_calls_scan_events (config : Config) (entries : list directory_entry) :
  host_calls (scan_events config entries) = [ListDir "."].
Proof.
  unfold scan_events, header_lines, found_lines. rewrite host_calls_app.
  replace (host_calls (if verbose config then _ else [])) with (@nil event)
    by now destruct (verbose config), (executeCommand config).
  unfold host_calls. simpl. f_equal.
  destruct (verbose config); [|reflexivity].
  induction (matching entries (keyword config)); simpl; trivial.
Qed.

Lemma host_calls_command_events (config : Config) (status : Z) :
  host_calls (command_events config status) = [System (command config)].
Proof.
  unfold command_events.
  now destruct (verbose config), (status =? 0)%Z.
Qed.

Lemma host_calls_done_lines (config : Config) : host_calls (done_lines config) = [].
Proof. unfold done_lines. now destruct (verbose config). Qed.

Lemma progress_not_ok_rename (e : event) : is_progress e = true -> is_ok_rename e = false.
Proof. destruct e; simpl; trivial; discriminate. Qed.

Lemma progress_not_cerr (e : event) : is_progress e = true -> is_cerr e = false.
Proof. destruct e as [[] []| | | |]; simpl; trivial; discriminate. Qed.

Lemma scan_events_no_ok_rename (config : Config) (entries : list directory_entry) :
  count is_ok_rename (scan_events config entries) = 0.
Proof.
  apply count_progress; [apply progress_not_ok_rename | apply scan_events_progress].
Qed.

Lemma scan_events_no_cerr (config : Config) (entries : list directory_entry) :
  count is_cerr (scan_events config entries) = 0.
Proof.
  apply count_progress; [apply progress_not_cerr | apply scan_events_progress].
Qed.

(** The run of a command line made of well-formed options. *)
Lemma main_items (arg0 : string) (items : list item) (fs : FS) :
  main (Ok loc) (arg0 :: tokens_of items) fs =
  let config := fold_left apply_item items default_config in
  if (Str.empty (keyword config) || Str.empty (newName config))%bool
  then (Returned 1%Z, fs, [Output Cerr MsgRequiredMissing; Output Cout MsgUsage])
  else run_cases config fs.
Proof.
  rewrite main_cases, parse_items_result. cbn zeta.
  destruct (Str.empty _ || Str.empty _)%bool; [reflexivity|].
  now destruct (run_cases _ fs) as [[o fs'] t].
Qed.

End RunFacts.

Ltac split_run config fs :=
  unfold run_cases, command_events, done_lines;
  let entries := fresh "entries" in
  let what := fresh "what" in
  let oldPath := fresh "oldPath" in
  let fs1 := fresh "fs1" in
  let fs2 := fresh "fs2" in
  let status := fresh "status" in
  destruct (directory_iterator fs ".") as [entries [what|]] eqn:Hlist;
  [| destruct (matching entries (keyword config)) as [|oldPath [|? ?]] eqn:Hmatch;
     [| destruct (fs_exists fs (newName config)) as [[]|what] eqn:Hexists;
        [| destruct (fs_rename fs oldPath (newName config)) as [fs1|what] eqn:Hrename;
           [ destruct (executeCommand config) eqn:Hflag;
             [ destruct (system fs1 (command config)) as [status fs2] eqn:Hsystem;
               destruct (status =? 0)%Z eqn:Hstatus |] |] |] |] ].

(** X6: A rejected command line ends the run at once: [main] returns 1 with the
    parser's output as its only trace, makes no call to the host and leaves
    the file system as it was. *)
Theorem rejected_run_returns_1
    {FS : Type} {host : Host FS} {loc : Locale} (argv : list string) (fs : FS)
    (config : Config) (out : list event)
    (Hrejected : parseArguments argv default_config = (false, config, out)) :
  main (Ok loc) argv fs = (Returned 1%Z, fs, out) /\ host_calls out = [].
Proof.
  rewrite main_cases, Hrejected. split; [reflexivity|].
  apply host_calls_outputs.
  pose proof (parseArguments_outputs argv default_config) as H.
  now rewrite Hrejected in H.
Qed.

Lemma rejected_run_returns_1_witness :
  main (Ok c_locale) ["rename_folders"; "--keyword"] dir_temp =
  (Returned 1%Z, dir_temp, [Output Cerr MsgMissingKeyword]).
Proof.
  exact (proj1 (@rejected_run_returns_1 _ _ c_locale ["rename_folders"; "--keyword"] dir_temp
                  default_config [Output Cerr MsgMissingKeyword] eq_refl)).
Defined.

(** X7: When [std::locale("")] can be built, [main] ends with [return 0] or
    [return 1] whatever the directory iteration, [fs::exists] and
    [fs::rename] answer or throw and whatever status the command returns:
    every exception they throw is caught at lines 216-218. When
    [std::locale("")] throws, at line 145 and so outside the [try] block,
    the exception leaves [main] before any output or call to the host. *)
Theorem main_returns_0_or_1_after_startup
    {FS : Type} {host : Host FS} (env : result Locale) (argv : list string) (fs : FS) :
  match env with
  | Ok _ =>
      exists code fs' t,
        main env argv fs = (Returned code, fs', t) /\ (code = 0%Z \/ code = 1%Z)
  | Error what => main env argv fs = (Thrown what, fs, [])
  end.
Proof.
  destruct env as [loc|what]; [|apply main_startup_failure].
  rewrite main_cases.
  destruct (parseArguments argv default_config) as [[[] config] out]; [|eauto 6].
  assert (H : exists code fs' t,
             run_cases config fs = (Returned code, fs', t) /\ (code = 0%Z \/ code = 1%Z))
    by (split_run config fs; eauto 6).
  destruct H as [code [fs' [t [-> Hcode]]]]. eauto 6.
Qed.

(** X8: The successful run without a follow-up command: exactly one match, the
    new name is free, the rename succeeds. [main] calls [fs::rename] once,
    from the matched path to the new name, starts no command, returns 0 and
    ends on the renamed file system. *)
Theorem single_match_is_renamed
    {FS : Type} {host : Host FS} {loc : Locale} (argv : list string) (fs fs1 : FS)
    (config : Config) (out : list event) (entries : list directory_entry)
    (oldPath : string)
    (Hparse : parseArguments argv default_config = (true, config, out))
    (Hlist : directory_iterator fs "." = (entries, None))
    (Hone : matching entries (keyword config) = [oldPath])
    (Hexists : fs_exists fs (newName config) = Ok false)
    (Hrename : fs_rename fs oldPath (newName config) = Ok fs1)
    (Hflag : executeCommand config = false) :
  let t := scan_events config entries ++
           [Exists (newName config); Rename oldPath (newName config) true;
            Output Cout (MsgRenamed (filename oldPath) (newName config))] ++
           done_lines config in
  main (Ok loc) argv fs = (Returned 0%Z, fs1, t) /\
  host_calls t =
    [ListDir "."; Exists (newName config); Rename oldPath (newName config) true].
Proof.
  cbn zeta. erewrite main_accepted by exact Hparse. unfold run_cases.
  rewrite Hlist, Hone, Hexists, Hrename, Hflag.
  split; [now rewrite <- app_assoc|].
  now rewrite !host_calls_app, host_calls_scan_events, host_calls_done_lines.
Qed.

Lemma single_match_is_renamed_witness :
  main (Ok c_locale) ["rename_folders"; "-k"; "temp"; "-n"; "final"] dir_temp =
  (Returned 0%Z, [("final", true); ("notes.txt", false)],
   [ListDir "."; Exists "final"; Rename "./temp_project" "final" true;
    Output Cout (MsgRenamed "temp_project" "final")]).
Proof.
  exact (proj1 (@single_match_is_renamed _ _ c_locale
    ["rename_folders"; "-k"; "temp"; "-n"; "final"] dir_temp
    [("final", true); ("notes.txt", false)]
    (mkConfig "temp" "final" "" false false) []
    [mkEntry "./temp_project" true; mkEntry "./notes.txt" false] "./temp_project"
    eq_refl eq_refl eq_refl eq_refl eq_refl eq_refl)).
Defined.

(** X9: The successful run with a follow-up command: after the rename the
    command is started once on the renamed file system; when it returns 0,
    [main] returns 0 and ends on the file system the command left. *)
Theorem command_success_returns_0
    {FS : Type} {host : Host FS} {loc : Locale} (argv : list string) (fs fs1 fs2 : FS)
    (config : Config) (out : list event) (entries : list directory_entry)
    (oldPath : string)
    (Hparse : parseArguments argv default_config = (true, config, out))
    (Hlist : directory_iterator fs "." = (entries, None))
    (Hone : matching entries (keyword config) = [oldPath])
    (Hexists : fs_exists fs (newName config) = Ok false)
    (Hrename : fs_rename fs oldPath (newName config) = Ok fs1)
    (Hflag : executeCommand config = true)
    (Hsystem : system fs1 (command config) = (0%Z, fs2)) :
  let t := scan_events config entries ++
           [Exists (newName config); Rename oldPath (newName config) true;
            Output Cout (MsgRenamed (filename oldPath) (newName config))] ++
           command_events config 0 ++ done_lines config in
  main (Ok loc) argv fs = (Returned 0%Z, fs2, t) /\
  host_calls t =
    [ListDir "."; Exists (newName config); Rename oldPath (newName config) true;
     System (command config)] /\
  count is_cerr t = 0.
Proof.
  cbn zeta. erewrite main_accepted by exact Hparse. unfold run_cases.
  rewrite Hlist, Hone, Hexists, Hrename, Hflag, Hsystem. cbn [Z.eqb].
  split; [now rewrite <- app_assoc|]. split.
  - now rewrite !host_calls_app, host_calls_scan_events, host_calls_command_events,
      host_calls_done_lines.
  - rewrite !count_app, scan_events_no_cerr. unfold command_events, done_lines.
    now destruct (verbose config).
Qed.

Lemma command_success_returns_0_witness :
  main (Ok c_locale) ["rename_folders"; "-k"; "temp"; "-n"; "final"; "-c"; "ls"] dir_temp =
  (Returned 0%Z, [("final", true); ("notes.txt", false)],
   [ListDir "."; Exists "final"; Rename "./temp_project" "final" true;
    Output Cout (MsgRenamed "temp_project" "final"); Output Cout MsgRunningExtra;
    System "ls"]).
Proof.
  exact (proj1 (@command_success_returns_0 _ _ c_locale
    ["rename_folders"; "-k"; "temp"; "-n"; "final"; "-c"; "ls"] dir_temp
    [("final", true); ("notes.txt", false)] [("final", true); ("notes.txt", false)]
    (mkConfig "temp" "final" "ls" true false) []
    [mkEntry "./temp_project" true; mkEntry "./notes.txt" false] "./temp_project"
    eq_refl eq_refl eq_refl eq_refl eq_refl eq_refl eq_refl)).
Defined.

(** X10: A rename that throws: the exception is caught, its text is reported on
    [std::cerr], [main] returns 1, the follow-up command is not started even
    when one is configured, and the file system is the one before the call. *)
Theorem rename_failure_returns_1
    {FS : Type} {host : Host FS} {loc : Locale} (argv : list string) (fs : FS)
    (config : Config) (out : list event) (entries : list directory_entry)
    (oldPath what : string)
    (Hparse : parseArguments argv default_config = (true, config, out))
    (Hlist : directory_iterator fs "." = (entries, None))
    (Hone : matching entries (keyword config) = [oldPath])
    (Hexists : fs_exists fs (newName config) = Ok false)
    (Hrename : fs_rename fs oldPath (newName config) = Error what) :
  let t := scan_events config entries ++
           [Exists (newName config); Rename oldPath (newName config) false;
            Output Cerr (MsgFsError what)] in
  main (Ok loc) argv fs = (Returned 1%Z, fs, t) /\ count is_system t = 0.
Proof.
  cbn zeta. erewrite main_accepted by exact Hparse. unfold run_cases.
  rewrite Hlist, Hone, Hexists, Hrename. split; [reflexivity | no_calls].
Qed.

(** X11: A directory iteration that throws, at its start or after some entries:
    the exception is caught and reported, [main] returns 1, and the listing
    is the run's only call to the host, however many of the entries seen so
    far match. *)
Theorem listing_failure_returns_1
    {FS : Type} {host : Host FS} {loc : Locale} (argv : list string) (fs : FS)
    (config : Config) (out : list event) (entries : list directory_entry)
    (what : string)
    (Hparse : parseArguments argv default_config = (true, config, out))
    (Hlist : directory_iterator fs "." = (entries, Some what)) :
  let t := scan_events config entries ++ [Output Cerr (MsgFsError what)] in
  main (Ok loc) argv fs = (Returned 1%Z, fs, t) /\ host_calls t = [ListDir "."].
Proof.
  cbn zeta. erewrite main_accepted by exact Hparse. unfold run_cases.
  rewrite Hlist. split; [reflexivity|].
  now rewrite host_calls_app, host_calls_scan_events.
Qed.

(** X12: An [fs::exists] that throws: the exception is caught and reported,
    [main] returns 1 and neither renames nor starts a command. *)
Theorem exists_failure_returns_1
    {FS : Type} {host : Host FS} {loc : Locale} (argv : list string) (fs : FS)
    (config : Config) (out : list event) (entries : list directory_entry)
    (oldPath what : string)
    (Hparse : parseArguments argv default_config = (true, config, out))
    (Hlist : directory_iterator fs "." = (entries, None))
    (Hone : matching entries (keyword config) = [oldPath])
    (Hexists : fs_exists fs (newName config) = Error what) :
  let t := scan_events config entries ++
           [Exists (newName config); Output Cerr (MsgFsError what)] in
  main (Ok loc) argv fs = (Returned 1%Z, fs, t) /\
  host_calls t = [ListDir "."; Exists (newName config)].
Proof.
  cbn zeta. erewrite main_accepted by exact Hparse. unfold run_cases.
  rewrite Hlist, Hone, Hexists. split; [reflexivity|].
  now rewrite host_calls_app, host_calls_scan_events.
Qed.

Lemma rename_failure_returns_1_witness :
  main (Ok c_locale) ["rename_folders"; "-k"; "temp"; "-n"; "final"; "-c"; "ls"]
       (FaultyFS.mk dir_temp FaultyFS.RenameThrows) =
  (Returned 1%Z, FaultyFS.mk dir_temp FaultyFS.RenameThrows,
   [ListDir "."; Exists "final"; Rename "./temp_project" "final" false;
    Output Cerr (MsgFsError "Permission denied")]).
Proof.
  exact (proj1 (@rename_failure_returns_1 _ _ c_locale
    ["rename_folders"; "-k"; "temp"; "-n"; "final"; "-c"; "ls"]
    (FaultyFS.mk dir_temp FaultyFS.RenameThrows)
    (mkConfig "temp" "final" "ls" true false) []
    [mkEntry "./temp_project" true; mkEntry "./notes.txt" false] "./temp_project"
    "Permission denied" eq_refl eq_refl eq_refl eq_refl eq_refl)).
Defined.

Lemma listing_failure_returns_1_witness :
  main (Ok c_locale) ["rename_folders"; "-k"; "temp"; "-n"; "final"]
       (FaultyFS.mk dir_temp (FaultyFS.ListBreaks 1)) =
  (Returned 1%Z, FaultyFS.mk dir_temp (FaultyFS.ListBreaks 1),
   [ListDir "."; Output Cerr (MsgFsError "Permission denied")]).
Proof.
  exact (proj1 (@listing_failure_returns_1 _ _ c_locale
    ["rename_folders"; "-k"; "temp"; "-n"; "final"]
    (FaultyFS.mk dir_temp (FaultyFS.ListBreaks 1))
    (mkConfig "temp" "final" "" false false) []
    [mkEntry "./temp_project" true] "Permission denied" eq_refl eq_refl)).
Defined.

Lemma exists_failure_returns_1_witness :
  main (Ok c_locale) ["rename_folders"; "-k"; "temp"; "-n"; "final"]
       (FaultyFS.mk dir_temp FaultyFS.ExistsThrows) =
  (Returned 1%Z, FaultyFS.mk dir_temp FaultyFS.ExistsThrows,
   [ListDir "."; Exists "final"; Output Cerr (MsgFsError "Input/output error")]).
Proof.
  exact (proj1 (@exists_failure_returns_1 _ _ c_locale
    ["rename_folders"; "-k"; "temp"; "-n"; "final"]
    (FaultyFS.mk dir_temp FaultyFS.ExistsThrows)
    (mkConfig "temp" "final" "" false false) []
    [mkEntry "./temp_project" true; mkEntry "./notes.txt" false] "./temp_project"
    "Input/output error" eq_refl eq_refl eq_refl eq_refl)).
Defined.

(** ** What holds of every run *)

Section EveryRun.

Context {FS : Type} {host : Host FS} {loc : Locale}.

Lemma count_outputs (p : event -> bool) (t : list event) :
  (forall e, is_output e = true -> p e = false) ->
  forallb is_output t = true -> count p t = 0.
Proof.
  intros Hp. unfold count. induction t as [|e t IH]; simpl; [reflexivity|].
  intros H. apply andb_true_iff in H. destruct H as [He Ht].
  rewrite (Hp e He). now apply IH.
Qed.

Lemma run_cases_unchanged (config : Config) (fs fs' : FS) (o : outcome unit)
    (t : list event) :
  run_cases config fs = (o, fs', t) -> count is_ok_rename t = 0 -> fs' = fs.
Proof.
  split_run config fs; intros H; injection H as <- <- <-; intros Hc;
    try reflexivity; exfalso;
    rewrite !count_app in Hc; unfold count in Hc; simpl in Hc; lia.
Qed.

Lemma run_cases_reported (config : Config) (fs fs' : FS) (t : list event) :
  run_cases config fs = (Returned 1%Z, fs', t) -> existsb is_diagnostic t = true.
Proof.
  split_run config fs; intros H; try discriminate H; injection H as <- <-;
    rewrite ?existsb_app; simpl;
    destruct (verbose config); simpl;
    rewrite ?orb_true_r; reflexivity.
Qed.

Lemma run_cases_zero (config : Config) (fs fs' : FS) (t : list event) :
  run_cases config fs = (Returned 0%Z, fs', t) ->
  count is_cerr t = 0 /\
  ((fs' = fs /\ host_calls t = [ListDir "."] /\
    In (Output Cout (MsgNoMatch (keyword config))) t) \/
   (count is_ok_rename t = 1 /\ count is_rename t = 1)).
Proof.
  split_run config fs; intros H; try discriminate H; injection H as <- <-.
  - split; [now rewrite count_app, scan_events_no_cerr|]. left.
    split; [reflexivity|]. split.
    + now rewrite host_calls_app, host_calls_scan_events.
    + apply in_or_app. right. simpl. auto.
  - apply Z.eqb_eq in Hstatus. subst status.
    split; [|right; split];
      rewrite !count_app, ?scan_events_no_cerr, ?scan_events_no_ok_rename,
        ?scan_events_no_rename;
      now destruct (verbose config).
  - split; [|right; split];
      rewrite !count_app, ?scan_events_no_cerr, ?scan_events_no_ok_rename,
        ?scan_events_no_rename;
      now destruct (verbose config).
Qed.

End EveryRun.

(** X13: The file system changes only through a rename that succeeded: a run
    whose trace has no successful [fs::rename] ends on the file system it
    started on. *)
Theorem unchanged_without_rename
    {FS : Type} {host : Host FS} (env : result Locale) (argv : list string) (fs fs' : FS)
    (o : outcome unit) (t : list event)
    (Hrun : main env argv fs = (o, fs', t))
    (Hnone : count is_ok_rename t = 0) :
  fs' = fs.
Proof.
  destruct env as [loc|what];
    [|rewrite main_startup_failure in Hrun; now injection Hrun as <- <- <-].
  rewrite main_cases in Hrun.
  destruct (parseArguments argv default_config) as [[[] config] out] eqn:Hparse.
  - destruct (parseArguments_accepts _ _ Hparse) as [_ [_ [_ [-> _]]]].
    destruct (run_cases config fs) as [[o1 fs1] t1] eqn:Hcases.
    injection Hrun as <- <- <-. exact (run_cases_unchanged _ _ Hcases Hnone).
  - now injection Hrun as <- <- <-.
Qed.

Lemma unchanged_without_rename_witness :
  [("temp_project", true); ("final", true)] = dir_temp_final.
Proof.
  exact (@unchanged_without_rename _ _ (Ok c_locale)
    ["rename_folders"; "-k"; "temp"; "-n"; "final"] dir_temp_final
    [("temp_project", true); ("final", true)] (Returned 1%Z)
    [ListDir "."; Exists "final"; Output Cerr (MsgTargetExists "final")]
    eq_refl eq_refl).
Defined.

(** X14: Every run that returns 1 tells the user why: its trace holds a line on
    [std::cerr], the usage text, or the warning about several matches. *)
Theorem failure_is_reported
    {FS : Type} {host : Host FS} (env : result Locale) (argv : list string) (fs fs' : FS)
    (t : list event)
    (Hrun : main env argv fs = (Returned 1%Z, fs', t)) :
  existsb is_diagnostic t = true.
Proof.
  destruct env as [loc|what];
    [|rewrite main_startup_failure in Hrun; discriminate Hrun].
  rewrite main_cases in Hrun.
  destruct (parseArguments argv default_config) as [[[] config] out] eqn:Hparse.
  - destruct (parseArguments_accepts _ _ Hparse) as [_ [_ [_ [-> _]]]].
    destruct (run_cases config fs) as [[o1 fs1] t1] eqn:Hcases.
    injection Hrun as -> <- <-. exact (run_cases_reported _ _ Hcases).
  - injection Hrun as <- <-.
    destruct (@rejection_report _ _ _ _ Hparse) as [Hne Hdiag].
    apply parser_lines_diagnostic in Hdiag.
    destruct out as [|e out]; [congruence|].
    simpl in *. apply andb_true_iff in Hdiag. destruct Hdiag as [-> _]. reflexivity.
Qed.

Lemma failure_is_reported_witness :
  existsb is_diagnostic [ListDir "."; Output Cout (MsgAmbiguous 2)] = true.
Proof.
  exact (@failure_is_reported _ _ (Ok c_locale) ["rename_folders"; "-k"; "old"; "-n"; "new"]
           dir_old dir_old [ListDir "."; Output Cout (MsgAmbiguous 2)] eq_refl).
Defined.

(** X15: A run that returns 0 has written nothing to [std::cerr], and either
    reported that nothing matched, with the listing as its only call to the
    host and the file system as it was, or called [fs::rename] exactly once,
    with success. *)
Theorem return_0_means_no_match_or_renamed
    {FS : Type} {host : Host FS} (env : result Locale) (argv : list string) (fs fs' : FS)
    (t : list event)
    (Hrun : main env argv fs = (Returned 0%Z, fs', t)) :
  count is_cerr t = 0 /\
  ((fs' = fs /\ host_calls t = [ListDir "."] /\
    exists kw, In (Output Cout (MsgNoMatch kw)) t) \/
   (count is_ok_rename t = 1 /\ count is_rename t = 1)).
Proof.
  destruct env as [loc|what];
    [|rewrite main_startup_failure in Hrun; discriminate Hrun].
  rewrite main_cases in Hrun.
  destruct (parseArguments argv default_config) as [[[] config] out] eqn:Hparse;
    [|discriminate].
  destruct (parseArguments_accepts _ _ Hparse) as [_ [_ [_ [-> _]]]].
  destruct (run_cases config fs) as [[o1 fs1] t1] eqn:Hcases.
  injection Hrun as -> <- <-.
  destruct (run_cases_zero _ _ Hcases) as [Hcerr [[Hfs [Hcalls Hin]] | Hren]].
  - split; [exact Hcerr|]. left. eauto.
  - split; [exact Hcerr|]. now right.
Qed.

Lemma return_0_means_no_match_or_renamed_witness :
  count is_cerr
    [ListDir "."; Exists "final"; Rename "./temp_project" "final" true;
     Output Cout (MsgRenamed "temp_project" "final")] = 0.
Proof.
  exact (proj1 (@return_0_means_no_match_or_renamed _ _ (Ok c_locale)
    ["rename_folders"; "-k"; "temp"; "-n"; "final"] dir_temp
    [("final", true); ("notes.txt", false)]
    [ListDir "."; Exists "final"; Rename "./temp_project" "final" true;
     Output Cout (MsgRenamed "temp_project" "final")] eq_refl)).
Defined.

Section RenameFacts.

Context {FS : Type} {host : Host FS} {loc : Locale}.

(** Where a run of [run_cases] calls [fs::rename]. *)
Lemma run_cases_rename (config : Config) (fs fs' : FS) (o : outcome unit)
    (t : list event) :
  run_cases config fs = (o, fs', t) ->
  count is_rename t <= 1 /\
  forall from to ok, In (Rename from to ok) t ->
    to = newName config /\
    fs_exists fs to = Ok false /\
    (exists entries,
        directory_iterator fs "." = (entries, None) /\
        matching entries (keyword config) = [from]) /\
    (if ok then exists fs1, fs_rename fs from to = Ok fs1
     else exists what, fs_rename fs from to = Error what).
Proof.
  split_run config fs; intros H; injection H as <- <- <-.
  all: destruct (verbose config); cbn [app].
  all: rewrite <- ?app_assoc; cbn [app].
  all: split; [rewrite count_app, scan_events_no_rename; unfold count; simpl; lia|].
  all: intros from to ok Hin; apply in_app_or in Hin; destruct Hin as [Hin|Hin];
    [ exfalso;
      exact (@in_count is_rename _ _ Hin eq_refl (scan_events_no_rename _ _)) |].
  all: simpl in Hin; repeat (destruct Hin as [Hin|Hin]; try discriminate);
    try contradiction; injection Hin as <- <- <-.
  all: repeat split; eauto.
Qed.

End RenameFacts.

(** X16: A run calls [fs::rename] at most once; and when it does, the command
    line was accepted, the directory iteration ended normally with exactly
    one match, which is the source of the rename, the destination is the new
    name as given, [fs::exists] answered that it is free, and the event
    records whether the host's rename succeeded. *)
Theorem rename_only_the_single_match
    {FS : Type} {host : Host FS} (env : result Locale) (argv : list string)
    (fs fs' : FS) (o : outcome unit) (t : list event)
    (Hrun : main env argv fs = (o, fs', t)) :
  count is_rename t <= 1 /\
  forall from to ok, In (Rename from to ok) t ->
    exists loc config entries,
      env = Ok loc /\
      parseArguments argv default_config = (true, config, []) /\
      directory_iterator fs "." = (entries, None) /\
      matching entries (keyword config) = [from] /\
      to = newName config /\
      fs_exists fs to = Ok false /\
      (if ok then exists fs1, fs_rename fs from to = Ok fs1
       else exists what, fs_rename fs from to = Error what).
Proof.
  destruct env as [loc|what];
    [|rewrite main_startup_failure in Hrun; injection Hrun as <- <- <-;
      split; [unfold count; simpl; lia | intros from to ok []]].
  rewrite main_cases in Hrun.
  destruct (parseArguments argv default_config) as [[[] config] out] eqn:Hparse.
  - destruct (parseArguments_accepts _ _ Hparse) as [_ [_ [_ [-> _]]]].
    destruct (run_cases config fs) as [[o1 fs1] t1] eqn:Hcases.
    injection Hrun as <- <- <-. simpl.
    destruct (run_cases_rename _ _ Hcases) as [Hle Hren].
    split; [exact Hle|]. intros from to ok Hin.
    destruct (Hren from to ok Hin) as [Hto [Hex [[entries [Hlist Hone]] Hok]]].
    exists loc, config, entries. auto 10.
  - injection Hrun as <- <- <-.
    pose proof (parseArguments_outputs argv default_config) as Houts.
    rewrite Hparse in Houts. simpl in Houts.
    assert (Hnone : count is_rename out = 0).
    { apply count_outputs; [|exact Houts]. intros []; simpl; congruence. }
    split; [lia|]. intros from to ok Hin. exfalso.
    exact (@in_count is_rename _ _ Hin eq_refl Hnone).
Qed.

Lemma rename_only_the_single_match_witness :
  count is_rename
    [ListDir "."; Exists "final"; Rename "./temp_project" "final" true;
     Output Cout (MsgRenamed "temp_project" "final")] <= 1.
Proof.
  exact (proj1 (@rename_only_the_single_match _ _ (Ok c_locale)
    ["rename_folders"; "-k"; "temp"; "-n"; "final"] dir_temp
    [("final", true); ("notes.txt", false)] (Returned 0%Z)
    [ListDir "."; Exists "final"; Rename "./temp_project" "final" true;
     Output Cout (MsgRenamed "temp_project" "final")] eq_refl)).
Defined.

Section VerboseFacts.

Context {FS : Type} {host : Host FS} {loc : Locale}.

Lemma apply_items_verbose (items : list item) :
  forall config b,
    fold_left apply_item items (set_verbose config b) =
    set_verbose (fold_left apply_item items config)
                (existsb is_verbose items || b)%bool.
Proof.
  induction items as [|i items IH]; intros config b; [reflexivity|].
  cbn [fold_left existsb].
  destruct i as [long | [] long value]; cbn [is_verbose orb apply_item].
  - change (set_verbose (set_verbose config b) true) with (set_verbose config true).
    rewrite (IH config true). destruct (existsb is_verbose items); reflexivity.
  - change (set_keyword (set_verbose config b) value)
      with (set_verbose (set_keyword config value) b). apply IH.
  - change (set_newName (set_verbose config b) value)
      with (set_verbose (set_newName config value) b). apply IH.
  - change (set_executeCommand (set_command (set_verbose config b) value) true)
      with (set_verbose (set_executeCommand (set_command config value) true) b).
    apply IH.
Qed.

(** [verbose] changes the console output of a run and nothing else. *)
Lemma run_cases_verbose (config : Config) (b : bool) (fs : FS) :
  without_output (run_cases (set_verbose config b) fs) =
  without_output (run_cases config fs).
Proof.
  unfold run_cases. cbn [keyword newName command executeCommand set_verbose].
  destruct (directory_iterator fs ".") as [entries [what|]].
  2: destruct (matching entries (keyword config)) as [|oldPath [|another more]].
  3: destruct (fs_exists fs (newName config)) as [[]|what].
  4: destruct (fs_rename fs oldPath (newName config)) as [fs1|what].
  4: destruct (executeCommand config).
  4: destruct (system fs1 (command config)) as [status fs2]; destruct (status =? 0)%Z.
  all: unfold without_output; cbn [fst snd]; f_equal;
    rewrite !host_calls_app, ?host_calls_scan_events, ?host_calls_command_events,
      ?host_calls_done_lines; reflexivity.
Qed.

End VerboseFacts.

(** X17: [-v] or [--verbose], wherever it stands among well-formed options,
    changes only the console output: with and without it the run ends the
    same way, on the same file system, after the same calls to the host. *)
Theorem verbose_changes_only_output
    {FS : Type} {host : Host FS} (env : result Locale) (arg0 : string)
    (before after : list item) (long : bool) (fs : FS) :
  without_output (main env (arg0 :: tokens_of (before ++ Verbose long :: after)) fs) =
  without_output (main env (arg0 :: tokens_of (before ++ after)) fs).
Proof.
  destruct env as [loc|what]; [|now rewrite !main_startup_failure].
  rewrite !main_items. cbn zeta. rewrite !fold_left_app. cbn [fold_left apply_item].
  rewrite apply_items_verbose.
  set (config := fold_left apply_item after (fold_left apply_item before default_config)).
  cbn [keyword newName set_verbose].
  destruct (Str.empty (keyword config) || Str.empty (newName config))%bool;
    [reflexivity | apply run_cases_verbose].
Qed.



(** X19: [executeExternalCommand] starts the command exactly once, returns [true]
    exactly when its status is 0, reports a status other than 0 on
    [std::cerr], never throws, and hands on the file system the command
    left; [verbose] only adds console output. *)
Theorem executeExternalCommand_contract
    {FS : Type} {host : Host FS} {loc : Locale} (cmd : string) (verbose : bool) (fs : FS) :
  let status := fst (system fs cmd) in
  exists t,
    executeExternalCommand cmd verbose fs =
      (Value (status =? 0)%Z, snd (system fs cmd), t) /\
    host_calls t = [System cmd] /\
    (In (Output Cerr (MsgCommandFailed status)) t <-> status <> 0%Z) /\
    count is_cerr t = (if (status =? 0)%Z then 0 else 1).
Proof.
  cbn zeta. unfold executeExternalCommand, bind, when, print, emit, ret, std_system.
  destruct verbose; cbn beta iota;
    destruct (system fs cmd) as [status fs2]; cbn [fst snd];
    destruct (status =? 0)%Z eqn:E; cbn [negb app];
    eexists; (split; [reflexivity|]); (split; [reflexivity|]); (split; [|reflexivity]).
  all: match goal with
       | E : (_ =? _)%Z = true |- _ =>
           apply Z.eqb_eq in E; split;
           [ intros H; simpl in H;
             repeat (destruct H as [H|H]; try discriminate); contradiction
           | intros H; contradiction ]
       | E : (_ =? _)%Z = false |- _ =>
           apply Z.eqb_neq in E; split; [intros _; exact E | intros _; simpl; auto 6]
       end.
Qed.

(** ** More on the match predicate *)

Section KeywordFacts.

Lemma append_assoc (a b c : string) : ((a ++ b) ++ c)%string = (a ++ b ++ c)%string.
Proof. induction a as [|x a IH]; simpl; [reflexivity | now rewrite IH]. Qed.

Lemma append_empty_r (a : string) : (a ++ "")%string = a.
Proof. induction a as [|x a IH]; simpl; [reflexivity | now rewrite IH]. Qed.

Lemma length_append (a b : string) :
  String.length (a ++ b)%string = String.length a + String.length b.
Proof. induction a as [|x a IH]; simpl; [reflexivity | now rewrite IH]. Qed.

Lemma transform_append (f : ascii -> ascii) (a b : string) :
  Str.transform f (a ++ b)%string = (Str.transform f a ++ Str.transform f b)%string.
Proof. induction a as [|x a IH]; simpl; [reflexivity | now rewrite IH]. Qed.

Lemma length_transform (f : ascii -> ascii) (a : string) :
  String.length (Str.transform f a) = String.length a.
Proof. induction a as [|x a IH]; simpl; [reflexivity | now rewrite IH]. Qed.

Lemma Substring_refl (s : string) : Str.Substring s s.
Proof. exists ""%string, ""%string. simpl. now rewrite append_empty_r. Qed.

Lemma Substring_trans (a b c : string) :
  Str.Substring a b -> Str.Substring b c -> Str.Substring a c.
Proof.
  intros [p1 [q1 ->]] [p2 [q2 ->]]. exists (p2 ++ p1)%string, (q1 ++ q2)%string.
  now rewrite !append_assoc.
Qed.

Lemma Substring_length (a b : string) :
  Str.Substring a b -> String.length a <= String.length b.
Proof. intros [p [q ->]]. rewrite !length_append. lia. Qed.

End KeywordFacts.

(** X20: A folder name contains itself under every locale: a directory is
    always found by its full name as it is written. It is also found by a
    re-cased spelling of its name whenever the locale in force lowers each
    re-cased byte to what it lowers the byte itself to, as the "C" locale
    does for ASCII upper-casing. *)
Theorem containsKeyword_own_name {loc : Locale} (folderName : string) :
  containsKeyword folderName folderName = true /\
  forall recase : ascii -> ascii,
    (forall c, lc_tolower (recase c) = lc_tolower c) ->
    containsKeyword folderName (Str.transform recase folderName) = true.
Proof.
  assert (H : containsKeyword folderName folderName = true)
    by (apply containsKeyword_iff, Substring_refl).
  split; [exact H|]. intros recase Hcancel.
  now rewrite containsKeyword_recased_keyword.
Qed.

Lemma containsKeyword_own_name_witness :
  containsKeyword (loc := c_locale) "Temp_Project" "TEMP_PROJECT" = true.
Proof.
  exact (proj2 (@containsKeyword_own_name c_locale "Temp_Project")
           Str.ascii_toupper c_tolower_toupper).
Defined.

(** X21: A keyword longer than the folder name never matches. *)
Theorem containsKeyword_longer_keyword {loc : Locale} (folderName keyword : string)
    (Hlong : String.length folderName < String.length keyword) :
  containsKeyword folderName keyword = false.
Proof.
  destruct (containsKeyword folderName keyword) eqn:E; [|reflexivity].
  apply containsKeyword_iff, Substring_length in E.
  rewrite !length_transform in E. lia.
Qed.

Lemma containsKeyword_longer_keyword_witness :
  containsKeyword (loc := c_locale) "old" "older" = false.
Proof.
  refine (@containsKeyword_longer_keyword c_locale "old" "older" _). simpl. lia.
Defined.

(** X22: A keyword found in a name is found in every name that has that name as
    a part; and the predicate is transitive: a part of a matching keyword
    matches too. *)
Theorem containsKeyword_monotone {loc : Locale} (folderName keyword : string)
    (Hmatch : containsKeyword folderName keyword = true) :
  (forall pre post,
      containsKeyword (pre ++ folderName ++ post)%string keyword = true) /\
  (forall part,
      containsKeyword keyword part = true -> containsKeyword folderName part = true).
Proof.
  apply containsKeyword_iff in Hmatch. split.
  - intros pre post. apply containsKeyword_iff.
    apply (Substring_trans Hmatch). rewrite !transform_append.
    now exists (Str.transform lc_tolower pre), (Str.transform lc_tolower post).
  - intros part Hpart. apply containsKeyword_iff in Hpart.
    apply containsKeyword_iff. exact (Substring_trans Hpart Hmatch).
Qed.

Lemma containsKeyword_monotone_witness :
  containsKeyword (loc := c_locale) "my_Temp_project" "TEMP" = true.
Proof.
  exact (proj1 (@containsKeyword_monotone c_locale "Temp" "TEMP" eq_refl) "my_" "_project").
Defined.

(** ** The scan's output, the reachable configurations, the order of calls *)

(** X23: The loop of lines 168-180 lists the directory once, leaves the file
    system as it is, and prints when verbose one line per match, in listing
    order, with the final path component of the match, also for the matches
    seen before an iteration that breaks off; it prints nothing otherwise. *)
Theorem scan_reports_each_match
    {FS : Type} {host : Host FS} {loc : Locale} (root : string) (config : Config) (fs : FS) :
  let entries := fst (directory_iterator fs root) in
  let lines :=
    if verbose config
    then map (fun p => Output Cout (MsgFound (filename p)))
             (matching entries (keyword config))
    else [] in
  scan root config fs =
  (match snd (directory_iterator fs root) with
   | None => Value (matching entries (keyword config))
   | Some what => Thrown what
   end, fs, ListDir root :: lines).
Proof.
  cbn zeta. rewrite scan_spec.
  now destruct (directory_iterator fs root) as [entries [what|]].
Qed.

(** X24: The configurations the parser can accept are exactly those with a
    non-empty keyword and new name in which [command] is empty unless
    [executeCommand] is set. *)
Theorem accepted_configs (config : Config) :
  (exists argv out, parseArguments argv default_config = (true, config, out)) <->
  (keyword config <> "" /\ newName config <> "" /\
   (executeCommand config = false -> command config = "")).
Proof.
  split.
  - intros [argv [out H]]. apply parseArguments_accepts in H.
    destruct H as [items [_ [Hc [_ [Hk Hn]]]]].
    pose proof (@command_set_with_flag items default_config (fun _ => eq_refl)) as Hcmd.
    rewrite <- Hc in Hcmd. auto.
  - intros [Hk [Hn Hcmd]]. exists ("rename_folders" :: serialize config), [].
    destruct config as [k n cmd ex v]. simpl in *.
    destruct k as [|k0 k]; [congruence|]. destruct n as [|n0 n]; [congruence|].
    destruct ex, v; try rewrite (Hcmd eq_refl); reflexivity.
Qed.

Section CallOrder.

Context {FS : Type} {host : Host FS} {loc : Locale}.

Lemma run_cases_calls (config : Config) (fs : FS) :
  let from := nth 0 (matching (fst (directory_iterator fs ".")) (keyword config)) "" in
  let ok := match fs_rename fs from (newName config) with
            | Ok _ => true
            | Error _ => false
            end in
  exists rest,
    [ListDir "."; Exists (newName config); Rename from (newName config) ok;
     System (command config)] = host_calls (snd (run_cases config fs)) ++ rest.
Proof.
  cbn zeta. unfold run_cases, command_events, done_lines.
  destruct (directory_iterator fs ".") as [entries [what|]]; cbn [fst].
  2: destruct (matching entries (keyword config)) as [|oldPath [|another more]];
     cbn [nth].
  3: destruct (fs_exists fs (newName config)) as [[]|what].
  4: destruct (fs_rename fs oldPath (newName config)) as [fs1|what].
  4: destruct (executeCommand config).
  4: destruct (system fs1 (command config)) as [status fs2]; destruct (status =? 0)%Z.
  all: cbn [snd];
    rewrite !host_calls_app, host_calls_scan_events; unfold host_calls;
    destruct (verbose config); simpl; eexists; reflexivity.
Qed.

End CallOrder.

(** X25: The calls to the host come in one fixed order. After an accepted
    command line the calls of the run are a beginning of the sequence: list
    the working directory, test the new name with [fs::exists], rename the
    first match to the new name (the recorded flag being the host's answer),
    start the configured command; no call is repeated, none is made out of
    turn, none has other arguments. A rejected command line, and an
    environment whose locale cannot be built, make no call at all. *)
Theorem host_calls_in_order
    {FS : Type} {host : Host FS} (env : result Locale) (argv : list string) (fs : FS) :
  let calls := host_calls (snd (main env argv fs)) in
  match env, parseArguments argv default_config with
  | Ok loc, (true, config, _) =>
      let from :=
        nth 0 (matching (fst (directory_iterator fs ".")) (keyword config)) "" in
      let ok := match fs_rename fs from (newName config) with
                | Ok _ => true
                | Error _ => false
                end in
      exists rest,
        [ListDir "."; Exists (newName config); Rename from (newName config) ok;
         System (command config)] = calls ++ rest
  | _, _ => calls = []
  end.
Proof.
  cbn zeta. destruct env as [loc|what].
  - rewrite main_cases.
    destruct (parseArguments argv default_config) as [[[] config] out] eqn:Hparse.
    + destruct (parseArguments_accepts _ _ Hparse) as [_ [_ [_ [-> _]]]].
      destruct (run_cases_calls config fs) as [rest H]. exists rest.
      rewrite H. now destruct (run_cases config fs) as [[o1 fs1] t1].
    + pose proof (parseArguments_outputs argv default_config) as Houts.
      rewrite Hparse in Houts. simpl in Houts.
      cbn [snd]. exact (host_calls_outputs _ Houts).
  - rewrite main_startup_failure.
    now destruct (parseArguments argv default_config) as [[[] config] out].
Qed.
